(** * LinkedIn job scraper: a shallow embedding of [linkedin_scraper.py]

    The development follows the source file top to bottom:
    - Python strings and [str.replace] as used by the URL construction;
    - the exception classes the browser automation layer raises;
    - the browser back end as an interface (any driver or test double);
    - a state-and-exception monad in which mutations survive a raise,
      as they do in Python;
    - [get_driver], [scrape_linkedin_jobs] and the main loop;
    - the properties of each of them. *)

From Stdlib Require Import Strings.String Strings.Ascii Lists.List Arith.PeanoNat
  Arith.Arith Bool.Bool micromega.Lia Sorting.Sorted.
Import ListNotations.

Local Open Scope string_scope.
Local Open Scope list_scope.

(** ** Python strings *)

Module PyStr.

Definition space : ascii := " "%char.

(** [s.replace(old, new)] for a one-character [old]: every occurrence is
    replaced, left to right.  A Python [str] is a sequence of code points
    and a Rocq [string] a sequence of bytes; no byte of a multi-byte UTF-8
    sequence equals an ASCII character, so the byte-wise replacement is the
    code-point-wise one. *)
Fixpoint replace (old : ascii) (new : string) (s : string) : string :=
  match s with
  | EmptyString => EmptyString
  | String c rest =>
      if Ascii.eqb c old
      then (new ++ replace old new rest)%string
      else String c (replace old new rest)
  end.

(** [c in s] for a single character. *)
Fixpoint has_char (c : ascii) (s : string) : bool :=
  match s with
  | EmptyString => false
  | String d rest => Ascii.eqb d c || has_char c rest
  end.

(** Number of occurrences of a character, [s.count(c)]. *)
Fixpoint count_char (c : ascii) (s : string) : nat :=
  match s with
  | EmptyString => 0
  | String d rest => (if Ascii.eqb d c then 1 else 0) + count_char c rest
  end.

(** [s.startswith(p)]. *)
Fixpoint startswith (p s : string) : bool :=
  match p with
  | EmptyString => true
  | String a p' =>
      match s with
      | EmptyString => false
      | String b s' => Ascii.eqb a b && startswith p' s'
      end
  end.

(** [p in s]: [p] occurs in [s] as a contiguous substring. *)
Fixpoint contains (p s : string) : bool :=
  startswith p s
  || match s with
     | EmptyString => false
     | String _ rest => contains p rest
     end.

(** Truthiness of a string: [if s:] holds for a non-empty [s]. *)
Definition truthy (s : string) : bool :=
  match s with EmptyString => false | String _ _ => true end.

End PyStr.

(** ** The search form (sidebar) *)

(** The four options of the "Time Range" select box. *)
Inductive TimeRange : Type :=
| Past24Hours
| PastWeek
| PastMonth
| AnyTime.

(** The dictionary [time_range_param]. *)
Definition time_range_param (t : TimeRange) : string :=
  match t with
  | Past24Hours => "r86400"
  | PastWeek => "r604800"
  | PastMonth => "r2592000"
  | AnyTime => ""
  end.

(** ** URL construction (the first lines of [scrape_linkedin_jobs]) *)

Definition base_url : string := "https://www.linkedin.com/jobs/search".

Definition location_param (location : string) : string :=
  PyStr.replace PyStr.space "%20" location.

Definition job_param (job_title : string) : string :=
  PyStr.replace PyStr.space "%20" job_title.

Definition link (job_title location time_param : string) : string :=
  if PyStr.truthy time_param
  then (base_url ++ "?keywords=" ++ job_param job_title
          ++ "&location=" ++ location_param location
          ++ "&f_TPR=" ++ time_param)%string
  else (base_url ++ "?keywords=" ++ job_param job_title
          ++ "&location=" ++ location_param location)%string.

(** ** Exceptions *)

(** The exception classes that occur.  Every one of them derives from
    [Exception]; the selenium ones derive from [WebDriverException].
    Signals outside [Exception] ([KeyboardInterrupt], [SystemExit]) are not
    faults of navigation, pagination or extraction and are left out. *)
Inductive exn : Type :=
| WebDriverException               (* session crashed, connection dropped *)
| NoSuchElementException           (* a locator matched nothing *)
| TimeoutException                 (* [WebDriverWait.until] gave up *)
| StaleElementReferenceException   (* the element left the document *)
| AttributeError                   (* a method called on [None] *)
| ValueError                       (* pandas: arrays of unequal length *)
| OtherException.                  (* any other subclass of [Exception] *)

(** [except WebDriverException]. *)
Definition isinstance_WebDriverException (e : exn) : bool :=
  match e with
  | WebDriverException | NoSuchElementException
  | TimeoutException | StaleElementReferenceException => true
  | AttributeError | ValueError | OtherException => false
  end.

(** [except Exception], and the bare [except:] for these classes. *)
Definition isinstance_Exception (e : exn) : bool :=
  match e with
  | WebDriverException | NoSuchElementException
  | TimeoutException | StaleElementReferenceException
  | AttributeError | ValueError | OtherException => true
  end.

(** ** The browser automation back end *)

(** Objects are identified by a number: a [webdriver.Chrome] instance and a
    [WebElement]. *)
Definition WebDriver : Type := nat.
Definition WebElement : Type := nat.

Inductive By : Type := CSS_SELECTOR | CLASS_NAME.
Definition Locator : Type := (By * string)%type.

(** The capability set the scraper consumes.  [B] is the state of the world
    outside the script (browser process, network, document); every command
    may change it and may raise. *)
Class Browser (B : Type) : Type := {
  (* webdriver.Chrome(service=Service(ChromeDriverManager().install()), options=options) *)
  Chrome : B -> B * (WebDriver + exn);
  (* driver.get(url) *)
  get : WebDriver -> string -> B -> B * (unit + exn);
  (* driver.quit() *)
  quit : WebDriver -> B -> B * (unit + exn);
  (* driver.execute_script(script) *)
  execute_script : WebDriver -> string -> B -> B * (unit + exn);
  (* WebDriverWait(driver, timeout).until(EC.element_to_be_clickable(locator)) *)
  until_clickable : WebDriver -> nat -> Locator -> B -> B * (WebElement + exn);
  (* element.click() *)
  click : WebElement -> B -> B * (unit + exn);
  (* driver.find_elements(by, value) *)
  find_elements : WebDriver -> Locator -> B -> B * (list WebElement + exn);
  (* element.find_element(by, value) *)
  find_element : WebElement -> Locator -> B -> B * (WebElement + exn);
  (* element.get_attribute(name): [None] when the attribute is absent *)
  get_attribute : WebElement -> string -> B -> B * (option string + exn);
  (* element.text *)
  text : WebElement -> B -> B * (string + exn)
}.

(** The commands sent to the back end and what came back, recorded in the
    order they were issued. *)
Inductive Call : Type :=
| CallChrome
| CallGet (d : WebDriver) (url : string)
| CallQuit (d : WebDriver)
| CallExecuteScript (d : WebDriver) (script : string)
| CallUntilClickable (d : WebDriver) (timeout : nat) (l : Locator)
| CallClick (e : WebElement)
| CallFindElements (d : WebDriver) (l : Locator)
| CallFindElement (e : WebElement) (l : Locator)
| CallGetAttribute (e : WebElement) (name : string)
| CallText (e : WebElement).

Inductive Ret : Type :=
| Raised (e : exn)
| RetUnit (u : unit)
| RetDriver (d : WebDriver)
| RetElement (e : WebElement)
| RetElements (l : list WebElement)
| RetAttribute (v : option string)
| RetText (s : string).

Definition Event : Type := (Call * Ret)%type.

(** ** Tables *)

(** What [scrape_linkedin_jobs] returns: the empty list [[]] when there is no
    driver, otherwise the dictionary of the four columns. *)
Inductive JobData : Type :=
| EmptyList
| Results (Job_Title : list string) (Company : list string)
          (Location : list string) (Job_URL : list (option string)).

(** A row of [pd.DataFrame(job_data)] and a row of the tagged table. *)
Record Listing : Type := mkListing {
  Job_Title : string;
  Company : string;
  Location : string;
  Job_URL : option string
}.

Record Row : Type := mkRow {
  listing : Listing;
  Search_Term : string
}.

Definition DataFrame : Type := list Row.

(** Rows of a dictionary of columns; [None] when the columns differ in
    length. *)
Fixpoint rows_of (t c l : list string) (u : list (option string))
  : option (list Listing) :=
  match t, c, l, u with
  | [], [], [], [] => Some []
  | t0 :: t', c0 :: c', l0 :: l', u0 :: u' =>
      match rows_of t' c' l' u' with
      | Some rs => Some (mkListing t0 c0 l0 u0 :: rs)
      | None => None
      end
  | _, _, _, _ => None
  end.

(** [if job_data and len(job_data["Job URL"]) > 0]. *)
Definition has_jobs (job_data : JobData) : bool :=
  match job_data with
  | EmptyList => false
  | Results _ _ _ urls => Nat.ltb 0 (List.length urls)
  end.

(** [df["Search Term"] = job_title]. *)
Definition set_search_term (df : list Listing) (job_title : string) : DataFrame :=
  map (fun r => mkRow r job_title) df.

(** [pd.concat([all_results, df], ignore_index=True)]. *)
Definition pd_concat (all_results df : DataFrame) : DataFrame := all_results ++ df.

(** ** What the script shows *)

Inductive Ui : Type :=
| UiErrorInit (e : exn)                 (* st.error(f"Error initializing WebDriver: {e}") *)
| UiProgressNew                         (* st.progress(0) *)
| UiProgress (num den : nat)            (* progress_bar.progress((i + 1) / num_scrolls) *)
| UiWarningWebDriver (e : exn)          (* st.warning(f"WebDriver exception: {e}") *)
| UiErrorScraping (e : exn)             (* st.error(f"Error during scraping: {e}") *)
| UiSubheader (job_title : string)      (* st.subheader(f"Scraping: {job_title}") *)
| UiFound (n : nat) (job_title : string)  (* st.write(f"Found {len(df)} jobs for '{job_title}'") *)
| UiWarningNoJobs (job_title : string)  (* st.warning(f"No jobs found for '{job_title}'") *)
| UiResults (all_results : DataFrame)   (* the "Search Results" block *)
| UiErrorNoJobs.                        (* st.error("No jobs found. Try adjusting ...") *)

(** ** The script's state and its effects *)

Section Script.

Context {B : Type} {browser : Browser B}.

(** Everything a run can change: the world outside, the store of
    [st.cache_resource] for [get_driver] (empty before the first call,
    then the value the body returned, together with the messages the body
    showed: the body of [get_driver] shows nothing but the error of a
    failed start, so they are kept as the exceptions of those errors), what
    was shown, the commands issued, and the local variables of the current
    [scrape_linkedin_jobs] frame. *)
Record St : Type := mkSt {
  world : B;
  cached : option (option WebDriver);
  cached_errors : list exn;
  ui : list Ui;
  calls : list Event;
  driver : option WebDriver;
  job_urls : list (option string);
  job_titles_list : list string;
  company_names : list string;
  locations_list : list string
}.

Definition set_world (b : B) (s : St) : St :=
  mkSt b (cached s) (cached_errors s) (ui s) (calls s) (driver s)
       (job_urls s) (job_titles_list s) (company_names s) (locations_list s).
Definition set_cached (c : option (option WebDriver)) (s : St) : St :=
  mkSt (world s) c (cached_errors s) (ui s) (calls s) (driver s)
       (job_urls s) (job_titles_list s) (company_names s) (locations_list s).
Definition set_cached_errors (es : list exn) (s : St) : St :=
  mkSt (world s) (cached s) es (ui s) (calls s) (driver s)
       (job_urls s) (job_titles_list s) (company_names s) (locations_list s).
Definition set_ui (u : list Ui) (s : St) : St :=
  mkSt (world s) (cached s) (cached_errors s) u (calls s) (driver s)
       (job_urls s) (job_titles_list s) (company_names s) (locations_list s).
Definition set_calls (c : list Event) (s : St) : St :=
  mkSt (world s) (cached s) (cached_errors s) (ui s) c (driver s)
       (job_urls s) (job_titles_list s) (company_names s) (locations_list s).
Definition set_driver (d : option WebDriver) (s : St) : St :=
  mkSt (world s) (cached s) (cached_errors s) (ui s) (calls s) d
       (job_urls s) (job_titles_list s) (company_names s) (locations_list s).
Definition set_job_urls (l : list (option string)) (s : St) : St :=
  mkSt (world s) (cached s) (cached_errors s) (ui s) (calls s) (driver s)
       l (job_titles_list s) (company_names s) (locations_list s).
Definition set_job_titles_list (l : list string) (s : St) : St :=
  mkSt (world s) (cached s) (cached_errors s) (ui s) (calls s) (driver s)
       (job_urls s) l (company_names s) (locations_list s).
Definition set_company_names (l : list string) (s : St) : St :=
  mkSt (world s) (cached s) (cached_errors s) (ui s) (calls s) (driver s)
       (job_urls s) (job_titles_list s) l (locations_list s).
Definition set_locations_list (l : list string) (s : St) : St :=
  mkSt (world s) (cached s) (cached_errors s) (ui s) (calls s) (driver s)
       (job_urls s) (job_titles_list s) (company_names s) l.

(** A computation returns a value or raises; the state it leaves behind
    is kept in both cases. *)
Definition M (A : Type) : Type := St -> St * (A + exn).

Definition ret {A} (a : A) : M A := fun s => (s, inl a).

Definition raise {A} (e : exn) : M A := fun s => (s, inr e).

Definition bind {A C} (m : M A) (k : A -> M C) : M C :=
  fun s =>
    match m s with
    | (s', inl a) => k a s'
    | (s', inr e) => (s', inr e)
    end.

(** [try: body / except cls as e: handler e]: the handler runs in the state
    the body left, and only for the classes it names. *)
Definition try_except {A} (body : M A) (cls : exn -> bool) (handler : exn -> M A)
  : M A :=
  fun s =>
    match body s with
    | (s', inl a) => (s', inl a)
    | (s', inr e) => if cls e then handler e s' else (s', inr e)
    end.

(** One command to the back end, recorded with its outcome. *)
Definition call {A} (c : Call) (inj : A -> Ret) (op : B -> B * (A + exn)) : M A :=
  fun s =>
    match op (world s) with
    | (b, inl a) => (set_calls (calls s ++ [(c, inj a)]) (set_world b s), inl a)
    | (b, inr e) => (set_calls (calls s ++ [(c, Raised e)]) (set_world b s), inr e)
    end.

(** A streamlit output command. *)
Definition show (u : Ui) : M unit :=
  fun s => (set_ui (ui s ++ [u]) s, inl tt).

(** Assignments to the local variables. *)
Definition assign (f : St -> St) : M unit := fun s => (f s, inl tt).

(** A method call on the object the local [driver] holds; on [None] the
    attribute lookup raises. *)
Definition on_driver {A} (f : WebDriver -> M A) : M A :=
  fun s =>
    match driver s with
    | Some d => f d s
    | None => (s, inr AttributeError)
    end.

(** [for x in xs: body]. *)
Fixpoint for_each {X} (xs : list X) (body : X -> M unit) : M unit :=
  match xs with
  | [] => ret tt
  | x :: rest => bind (body x) (fun _ => for_each rest body)
  end.

(** [range(n)]. *)
Definition range (n : nat) : list nat := seq 0 n.

End Script.

Arguments St B : clear implicits.
Arguments M B A : clear implicits.

Declare Scope py_scope.
Delimit Scope py_scope with py.
Notation "x <- m ;; k" := (bind m (fun x => k))
  (at level 100, m at next level, right associativity) : py_scope.
Notation "m ;; k" := (bind m (fun _ => k))
  (at level 100, right associativity) : py_scope.
Local Open Scope py_scope.

(** ** The functions of the script *)

Section Scraper.

Context {B : Type} {browser : Browser B}.

(** *** [get_driver] *)

(** The errors of failed starts among the messages [us]. *)
Definition init_errors (us : list Ui) : list exn :=
  flat_map (fun u => match u with UiErrorInit e => [e] | _ => [] end) us.

(** [@st.cache_resource] on a function without arguments: the body runs
    when the store is empty; its return value is stored, and with it the
    messages it showed while it ran (what [ui] gained; the decorated body
    shows nothing but the error of a failed start, and these are what is
    kept).  Every later call returns the stored value without running the
    body, and shows the stored messages again.  A raise is not stored. *)
Definition cache_resource (body : M B (option WebDriver)) : M B (option WebDriver) :=
  fun s =>
    match cached s with
    | Some v => (set_ui (ui s ++ map UiErrorInit (cached_errors s)) s, inl v)
    | None =>
        match body s with
        | (s', inl v) =>
            (set_cached_errors (init_errors (skipn (List.length (ui s)) (ui s')))
               (set_cached (Some v) s'), inl v)
        | (s', inr e) => (s', inr e)
        end
    end.

(** The body builds the options (four command-line switches), which cannot
    fail, and starts the browser. *)
Definition get_driver : M B (option WebDriver) :=
  cache_resource
    (try_except
       (driver <- call CallChrome RetDriver Chrome ;;
        ret (Some driver))
       isinstance_Exception
       (fun e => show (UiErrorInit e) ;; ret None)).

(** *** [scrape_linkedin_jobs] *)

Definition scroll_script : string :=
  "window.scrollTo(0, document.body.scrollHeight);".
Definition see_more_jobs : Locator :=
  (CSS_SELECTOR, "button[aria-label='See more jobs']").
Definition job_search_card : Locator := (CLASS_NAME, "job-search-card").
Definition title_anchor : Locator := (CSS_SELECTOR, "a.job-card-list__title").
Definition company_name : Locator :=
  (CSS_SELECTOR, ".job-card-container__company-name").
Definition metadata_item : Locator :=
  (CSS_SELECTOR, ".job-card-container__metadata-item").

(** The handler of [except WebDriverException] in the scroll loop
    ("Restart session").  [time.sleep] only waits and is left out, here and
    below. *)
Definition restart_session (link : string) (e : exn) : M B unit :=
  show (UiWarningWebDriver e) ;;
  on_driver (fun d => call (CallQuit d) RetUnit (quit d)) ;;
  d <- get_driver ;;
  assign (set_driver d) ;;
  on_driver (fun d => call (CallGet d link) RetUnit (get d link)).

(** The body of [for i in range(num_scrolls)]. *)
Definition scroll_round (link : string) (num_scrolls : nat) (i : nat) : M B unit :=
  try_except
    (on_driver (fun d =>
       call (CallExecuteScript d scroll_script) RetUnit
            (execute_script d scroll_script)) ;;
     try_except
       (button <- on_driver (fun d =>
          call (CallUntilClickable d 10 see_more_jobs) RetElement
               (until_clickable d 10 see_more_jobs)) ;;
        call (CallClick button) RetUnit (click button))
       isinstance_Exception
       (fun _ => ret tt) ;;
     show (UiProgress (i + 1) num_scrolls))
    isinstance_WebDriverException
    (restart_session link).

(** The body of [for card in job_cards]. *)
Definition scrape_card (card : WebElement) : M B unit :=
  try_except
    (url_element <- call (CallFindElement card title_anchor) RetElement
                         (find_element card title_anchor) ;;
     href <- call (CallGetAttribute url_element "href") RetAttribute
                  (get_attribute url_element "href") ;;
     assign (fun s => set_job_urls (job_urls s ++ [href]) s) ;;
     title <- call (CallText url_element) RetText (text url_element) ;;
     assign (fun s => set_job_titles_list (job_titles_list s ++ [title]) s) ;;
     try_except
       (company <- call (CallFindElement card company_name) RetElement
                        (find_element card company_name) ;;
        name <- call (CallText company) RetText (text company) ;;
        assign (fun s => set_company_names (company_names s ++ [name]) s))
       isinstance_Exception
       (fun _ => assign (fun s => set_company_names (company_names s ++ ["N/A"]) s)) ;;
     try_except
       (loc <- call (CallFindElement card metadata_item) RetElement
                    (find_element card metadata_item) ;;
        place <- call (CallText loc) RetText (text loc) ;;
        assign (fun s => set_locations_list (locations_list s ++ [place]) s))
       isinstance_Exception
       (fun _ => assign (fun s => set_locations_list (locations_list s ++ ["N/A"]) s)))
    isinstance_Exception
    (fun _ => ret tt).

(** The scroll loop. *)
Definition scroll_loop (link : string) (num_scrolls : nat) : M B unit :=
  for_each (range num_scrolls) (scroll_round link num_scrolls).

(** The card loop. *)
Definition scrape_cards (job_cards : list WebElement) : M B unit :=
  for_each job_cards scrape_card.

(** The block under the outer [try] (the spinner only decorates it). *)
Definition scrape_block (link : string) (num_scrolls : nat) : M B unit :=
  on_driver (fun d => call (CallGet d link) RetUnit (get d link)) ;;
  show UiProgressNew ;;
  scroll_loop link num_scrolls ;;
  job_cards <- on_driver (fun d =>
    call (CallFindElements d job_search_card) RetElements
         (find_elements d job_search_card)) ;;
  scrape_cards job_cards.

(** The dictionary built from the four lists. *)
Definition results_of (s : St B) : JobData :=
  Results (job_titles_list s) (company_names s) (locations_list s) (job_urls s).

Definition results : M B JobData := fun s => (s, inl (results_of s)).

Definition scrape_linkedin_jobs
    (job_title location time_param : string) (num_scrolls : nat) : M B JobData :=
  d <- get_driver ;;
  assign (set_driver d) ;;
  match d with
  | None => ret EmptyList
  | Some _ =>
      assign (set_job_urls []) ;;
      assign (set_job_titles_list []) ;;
      assign (set_company_names []) ;;
      assign (set_locations_list []) ;;
      try_except
        (scrape_block (link job_title location time_param) num_scrolls)
        isinstance_Exception
        (fun e => show (UiErrorScraping e)) ;;
      results
  end.

(** *** The main loop *)

(** [pd.DataFrame(job_data)]: the columns must have the same length. *)
Definition pd_DataFrame (job_data : JobData) : M B (list Listing) :=
  match job_data with
  | EmptyList => ret []
  | Results t c l u =>
      match rows_of t c l u with
      | Some rows => ret rows
      | None => raise ValueError
      end
  end.

(** [for job_title in job_titles_list], with the table [all_results]
    built so far. *)
Fixpoint search_loop (job_titles : list string) (location : string)
    (time_range : TimeRange) (num_scrolls : nat) (all_results : DataFrame)
  : M B DataFrame :=
  match job_titles with
  | [] => ret all_results
  | job_title :: rest =>
      show (UiSubheader job_title) ;;
      let time_param := time_range_param time_range in
      job_data <- scrape_linkedin_jobs job_title location time_param num_scrolls ;;
      if has_jobs job_data then
        df <- pd_DataFrame job_data ;;
        let df := set_search_term df job_title in
        let all_results := pd_concat all_results df in
        show (UiFound (List.length df) job_title) ;;
        search_loop rest location time_range num_scrolls all_results
      else
        show (UiWarningNoJobs job_title) ;;
        search_loop rest location time_range num_scrolls all_results
  end.

(** What the "Search Jobs" button runs, from the list of stripped job
    titles on. *)
Definition main (job_titles : list string) (location : string)
    (time_range : TimeRange) (num_scrolls : nat) : M B DataFrame :=
  all_results <- search_loop job_titles location time_range num_scrolls [] ;;
  match all_results with
  | [] => show UiErrorNoJobs
  | _ :: _ => show (UiResults all_results)
  end ;;
  ret all_results.

End Scraper.

(** ** A test double for the back end *)

Module Stub.

(** One listing container of the results page. *)
Record CardSpec : Type := mkCard {
  anchor : bool;                  (* the title anchor exists *)
  href : option string + exn;     (* what reading its [href] gives *)
  title : string + exn;           (* what reading its text gives *)
  company : option string;        (* text of the company element, if any *)
  place : option string           (* text of the location element, if any *)
}.

Record World : Type := mkWorld {
  launch_fails : bool;            (* the browser cannot be started *)
  quit_is_final : bool;           (* a session that was quit refuses commands *)
  scroll_faults : list nat;       (* which scroll commands (0, 1, ...) crash *)
  button : option exn;            (* waiting for the button: found, or raises *)
  cards : list CardSpec;          (* the containers, in document order *)
  sessions : nat;                 (* sessions started so far *)
  dead : list WebDriver;          (* sessions that were quit *)
  scrolls : nat                   (* scroll commands received so far *)
}.

Definition refuses (d : WebDriver) (w : World) : bool :=
  quit_is_final w && existsb (Nat.eqb d) (dead w).

(** Element numbers: the button is 1; container [i] is [10 * (i + 1)], its
    anchor, company and location elements follow it. *)
Definition card_id (i : nat) : WebElement := 10 * (i + 1).
Definition card_of (e : WebElement) (w : World) : option CardSpec :=
  nth_error (cards w) (e / 10 - 1).

Definition stub_Chrome (w : World) : World * (WebDriver + exn) :=
  if launch_fails w then (w, inr WebDriverException)
  else (mkWorld (launch_fails w) (quit_is_final w) (scroll_faults w) (button w)
                (cards w) (S (sessions w)) (dead w) (scrolls w),
        inl (S (sessions w))).

Definition stub_get (d : WebDriver) (url : string) (w : World)
  : World * (unit + exn) :=
  if refuses d w then (w, inr OtherException) else (w, inl tt).

Definition stub_quit (d : WebDriver) (w : World) : World * (unit + exn) :=
  (mkWorld (launch_fails w) (quit_is_final w) (scroll_faults w) (button w)
           (cards w) (sessions w) (d :: dead w) (scrolls w),
   inl tt).

Definition stub_execute_script (d : WebDriver) (script : string) (w : World)
  : World * (unit + exn) :=
  if refuses d w then (w, inr OtherException)
  else
    let w' := mkWorld (launch_fails w) (quit_is_final w) (scroll_faults w)
                      (button w) (cards w) (sessions w) (dead w) (S (scrolls w)) in
    if existsb (Nat.eqb (scrolls w)) (scroll_faults w)
    then (w', inr WebDriverException)
    else (w', inl tt).

Definition stub_until_clickable (d : WebDriver) (timeout : nat) (l : Locator)
    (w : World) : World * (WebElement + exn) :=
  match button w with
  | Some e => (w, inr e)
  | None => (w, inl 1)
  end.

Definition stub_click (e : WebElement) (w : World) : World * (unit + exn) :=
  (w, inl tt).

Definition stub_find_elements (d : WebDriver) (l : Locator) (w : World)
  : World * (list WebElement + exn) :=
  if refuses d w then (w, inr OtherException)
  else (w, inl (map card_id (seq 0 (List.length (cards w))))).

Definition stub_find_element (e : WebElement) (l : Locator) (w : World)
  : World * (WebElement + exn) :=
  match card_of e w with
  | None => (w, inr NoSuchElementException)
  | Some c =>
      if String.eqb (snd l) "a.job-card-list__title" then
        if anchor c then (w, inl (e + 1)) else (w, inr NoSuchElementException)
      else if String.eqb (snd l) ".job-card-container__company-name" then
        match company c with
        | Some _ => (w, inl (e + 2))
        | None => (w, inr NoSuchElementException)
        end
      else if String.eqb (snd l) ".job-card-container__metadata-item" then
        match place c with
        | Some _ => (w, inl (e + 3))
        | None => (w, inr NoSuchElementException)
        end
      else (w, inr NoSuchElementException)
  end.

Definition stub_get_attribute (e : WebElement) (name : string) (w : World)
  : World * (option string + exn) :=
  match card_of e w with
  | Some c =>
      if Nat.eqb (e mod 10) 1 && String.eqb name "href"
      then (w, href c) else (w, inl None)
  | None => (w, inr StaleElementReferenceException)
  end.

Definition stub_text (e : WebElement) (w : World) : World * (string + exn) :=
  match card_of e w with
  | Some c =>
      match e mod 10 with
      | 1 => (w, title c)
      | 2 => (w, match company c with
                 | Some s => inl s
                 | None => inr StaleElementReferenceException
                 end)
      | 3 => (w, match place c with
                 | Some s => inl s
                 | None => inr StaleElementReferenceException
                 end)
      | _ => (w, inl "")
      end
  | None => (w, inr StaleElementReferenceException)
  end.

#[export] Instance stub_browser : Browser World := {|
  Chrome := stub_Chrome;
  get := stub_get;
  quit := stub_quit;
  execute_script := stub_execute_script;
  until_clickable := stub_until_clickable;
  click := stub_click;
  find_elements := stub_find_elements;
  find_element := stub_find_element;
  get_attribute := stub_get_attribute;
  text := stub_text
|}.

(** A page and a script state before the first run. *)
Definition page (fails final : bool) (faults : list nat) (b : option exn)
    (cs : list CardSpec) : World :=
  mkWorld fails final faults b cs 0 [] 0.

Definition fresh (w : World) : St World :=
  mkSt w None [] [] [] None [] [] [] [].

(** A complete container, one without company, one without location, one
    without anchor, one whose link has no [href], one whose title cannot be
    read. *)
Definition full (n : string) : CardSpec :=
  mkCard true (inl (Some ("https://example.org/" ++ n)%string)) (inl n)
         (Some "Acme") (Some "Pune").
Definition no_company (n : string) : CardSpec :=
  mkCard true (inl (Some ("https://example.org/" ++ n)%string)) (inl n)
         None (Some "Pune").
Definition no_place (n : string) : CardSpec :=
  mkCard true (inl (Some ("https://example.org/" ++ n)%string)) (inl n)
         (Some "Acme") None.
Definition bare (n : string) : CardSpec :=
  mkCard true (inl (Some ("https://example.org/" ++ n)%string)) (inl n) None None.
Definition no_anchor : CardSpec :=
  mkCard false (inr NoSuchElementException) (inr NoSuchElementException)
         (Some "Acme") (Some "Pune").
Definition no_href (n : string) : CardSpec :=
  mkCard true (inl None) (inl n) (Some "Acme") (Some "Pune").
Definition stale_title (n : string) : CardSpec :=
  mkCard true (inl (Some ("https://example.org/" ++ n)%string))
         (inr StaleElementReferenceException) (Some "Acme") (Some "Pune").

End Stub.

#[export] Existing Instance Stub.stub_browser.

(** ** Reading the records of a run *)

(** Navigations to [link]: the [driver.get(link)] commands issued. *)
Definition is_navigation (link : string) (ev : Event) : bool :=
  match ev with
  | (CallGet _ url, _) => String.eqb url link
  | _ => false
  end.
Definition navigations (link : string) (evs : list Event) : nat :=
  List.length (filter (is_navigation link) evs).

(** Scroll rounds begun: each round starts with one [execute_script]. *)
Definition is_scroll (ev : Event) : bool :=
  match ev with
  | (CallExecuteScript _ _, _) => true
  | _ => false
  end.
Definition rounds_started (evs : list Event) : nat :=
  List.length (filter is_scroll evs).

(** Browsers started. *)
Definition is_launch (ev : Event) : bool :=
  match ev with
  | (CallChrome, _) => true
  | _ => false
  end.
Definition launches (evs : list Event) : nat :=
  List.length (filter is_launch evs).

(** Sessions closed. *)
Definition is_quit (ev : Event) : bool :=
  match ev with
  | (CallQuit _, _) => true
  | _ => false
  end.
Definition quits (evs : list Event) : nat :=
  List.length (filter is_quit evs).

(** Entries into the "Restart session" handler: each one starts with its
    warning. *)
Definition is_restart (u : Ui) : bool :=
  match u with
  | UiWarningWebDriver _ => true
  | _ => false
  end.
Definition restarts (us : list Ui) : nat :=
  List.length (filter is_restart us).

(** The round numbers reported to the progress bar, in order. *)
Definition progress_reports (us : list Ui) : list nat :=
  flat_map (fun u => match u with UiProgress k _ => [k] | _ => [] end) us.

(** The values the [href] reads returned, in order. *)
Definition hrefs_read (evs : list Event) : list (option string) :=
  flat_map (fun ev =>
              match ev with
              | (CallGetAttribute _ name, RetAttribute v) =>
                  if String.eqb name "href" then [v] else []
              | _ => []
              end) evs.

(** What was shown, apart from the messages of [get_driver]. *)
Definition without_init_errors (us : list Ui) : list Ui :=
  filter (fun u => match u with UiErrorInit _ => false | _ => true end) us.

(** A url that is present and not the empty string. *)
Definition nonempty_url (r : Row) : bool :=
  match Job_URL (listing r) with
  | Some u => PyStr.truthy u
  | None => false
  end.

Section Observations.

Context {B : Type} {browser : Browser B}.

(** What a stretch of the run added to the two records: the commands
    [evs] and the outputs [us]. *)
Definition delta (s s' : St B) (evs : list Event) (us : list Ui) : Prop :=
  calls s' = calls s ++ evs /\ ui s' = ui s ++ us.

(** The four columns, in the order of the dictionary. *)
Definition columns (s : St B)
  : list string * list string * list string * list (option string) :=
  (job_titles_list s, company_names s, locations_list s, job_urls s).

(** The frame of [scrape_linkedin_jobs] when it enters the [try] block:
    the session in [driver] and four empty lists. *)
Definition at_try (d : WebDriver) (s : St B) : St B :=
  set_locations_list []
    (set_company_names []
       (set_job_titles_list [] (set_job_urls [] (set_driver (Some d) s)))).

(** What the reads on a container's title anchor give in world [b]; when
    both succeed, also the world they leave. *)
Inductive AnchorOutcome : Type :=
| NoAnchor                                (* the anchor lookup raises *)
| NoHref                                  (* reading [href] raises *)
| NoTitle (url : option string)           (* reading the text raises *)
| Anchor (url : option string) (title : string) (after : B).

Definition anchor_outcome (card : WebElement) (b : B) : AnchorOutcome :=
  match find_element card title_anchor b with
  | (_, inr _) => NoAnchor
  | (b1, inl a) =>
      match get_attribute a "href" b1 with
      | (_, inr _) => NoHref
      | (b2, inl u) =>
          match text a b2 with
          | (_, inr _) => NoTitle u
          | (b3, inl t) => Anchor u t b3
          end
      end
  end.

(** The outcome for each container of a batch, each taken in the world
    the script has reached when it gets to that container. *)
Fixpoint anchor_outcomes (cards : list WebElement) (s : St B)
  : list AnchorOutcome :=
  match cards with
  | [] => []
  | card :: rest =>
      anchor_outcome card (world s)
      :: anchor_outcomes rest (fst (scrape_card card s))
  end.

Definition is_anchor (o : AnchorOutcome) : bool :=
  match o with Anchor _ _ _ => true | _ => false end.
Definition is_no_title (o : AnchorOutcome) : bool :=
  match o with NoTitle _ => true | _ => false end.

(** The value of a secondary field (company, location) looked up with
    locator [l] in world [b], and the world afterwards. *)
Definition secondary (card : WebElement) (l : Locator) (b : B) : B * string :=
  match find_element card l b with
  | (b1, inr _) => (b1, "N/A")
  | (b1, inl el) =>
      match text el b1 with
      | (b2, inr _) => (b2, "N/A")
      | (b2, inl v) => (b2, v)
      end
  end.

(** The table one query contributes: nothing when it has no jobs, its rows
    tagged with the job title otherwise; [None] when the rows cannot be
    built. *)
Definition table_of (job_title : string) (job_data : JobData) : option DataFrame :=
  if has_jobs job_data then
    match job_data with
    | EmptyList => Some []
    | Results t c l u =>
        option_map (fun rows => set_search_term rows job_title) (rows_of t c l u)
    end
  else Some [].

Definition tagged (job_title : string) (job_data : JobData) : DataFrame :=
  match table_of job_title job_data with
  | Some df => df
  | None => []
  end.

(** What the main loop shows for one query after scraping. *)
Definition report (job_title : string) (job_data : JobData) : Ui :=
  if has_jobs job_data
  then UiFound (List.length (tagged job_title job_data)) job_title
  else UiWarningNoJobs job_title.

(** The job titles of a run with what [scrape_linkedin_jobs] returned for
    each, every query started in the state the loop has reached by then. *)
Fixpoint batches (job_titles : list string) (location : string)
    (time_range : TimeRange) (num_scrolls : nat) (s : St B)
  : list (string * JobData) :=
  match job_titles with
  | [] => []
  | job_title :: rest =>
      match scrape_linkedin_jobs job_title location (time_range_param time_range)
              num_scrolls (set_ui (ui s ++ [UiSubheader job_title]) s) with
      | (s2, inl job_data) =>
          (job_title, job_data)
          :: batches rest location time_range num_scrolls
               (set_ui (ui s2 ++ [report job_title job_data]) s2)
      | (_, inr _) => []
      end
  end.

End Observations.

(** ** Further readings of the records *)

(** The session a command is sent to, for the commands of the driver
    itself (the commands on elements name none). *)
Definition session_of (c : Call) : option WebDriver :=
  match c with
  | CallGet d _ | CallQuit d | CallExecuteScript d _
  | CallUntilClickable d _ _ | CallFindElements d _ => Some d
  | CallChrome | CallClick _ | CallFindElement _ _
  | CallGetAttribute _ _ | CallText _ => None
  end.

Definition addressed_to (d : WebDriver) (ev : Event) : bool :=
  match session_of (fst ev) with
  | Some d' => Nat.eqb d' d
  | None => true
  end.

Section OutcomeColumns.

Context {B : Type}.

(** The titles and the urls a list of anchor outcomes puts into the
    columns. *)
Definition titles_of (outs : list (@AnchorOutcome B)) : list string :=
  flat_map (fun o => match o with Anchor _ t _ => [t] | _ => [] end) outs.

Definition urls_of (outs : list (@AnchorOutcome B)) : list (option string) :=
  flat_map (fun o =>
              match o with
              | Anchor u _ _ | NoTitle u => [u]
              | NoAnchor | NoHref => []
              end) outs.

End OutcomeColumns.

(** ** The job titles typed into the form *)

Module PyText.

(** [s.split(sep)] for a one-character [sep]: the pieces between the
    separators, empty pieces included; never the empty list. *)
Fixpoint split (sep : ascii) (s : string) : list string :=
  match s with
  | EmptyString => [EmptyString]
  | String c rest =>
      if Ascii.eqb c sep then EmptyString :: split sep rest
      else
        match split sep rest with
        | [] => [String c EmptyString]
        | piece :: pieces => String c piece :: pieces
        end
  end.

(** [sep.join(pieces)]. *)
Fixpoint join (sep : string) (pieces : list string) : string :=
  match pieces with
  | [] => EmptyString
  | [piece] => piece
  | piece :: rest => (piece ++ sep ++ join sep rest)%string
  end.

(** The characters [str.isspace] accepts, in UTF-8: the ASCII ones
    (U+0009..U+000D, U+001C..U+0020), then U+0085 and U+00A0 (two bytes),
    then U+1680, U+2000..U+200A, U+2028, U+2029, U+202F, U+205F and U+3000
    (three bytes). *)
Definition is_space1 (a : ascii) : bool :=
  let x := nat_of_ascii a in
  (Nat.leb 9 x && Nat.leb x 13) || (Nat.leb 28 x && Nat.leb x 32).

Definition is_space2 (a b : ascii) : bool :=
  Nat.eqb (nat_of_ascii a) 194
  && (Nat.eqb (nat_of_ascii b) 133 || Nat.eqb (nat_of_ascii b) 160).

Definition is_space3 (a b c : ascii) : bool :=
  let x := nat_of_ascii a in
  let y := nat_of_ascii b in
  let z := nat_of_ascii c in
  (Nat.eqb x 225 && Nat.eqb y 154 && Nat.eqb z 128)
  || (Nat.eqb x 226 && Nat.eqb y 128
      && ((Nat.leb 128 z && Nat.leb z 138)
          || Nat.eqb z 168 || Nat.eqb z 169 || Nat.eqb z 175))
  || (Nat.eqb x 226 && Nat.eqb y 129 && Nat.eqb z 159)
  || (Nat.eqb x 227 && Nat.eqb y 128 && Nat.eqb z 128).

(** The rest of [s] after one leading whitespace character, if it starts
    with one. *)
Definition ws_prefix (s : string) : option string :=
  match s with
  | String a r1 =>
      if is_space1 a then Some r1
      else
        match r1 with
        | String b r2 =>
            if is_space2 a b then Some r2
            else
              match r2 with
              | String c r3 => if is_space3 a b c then Some r3 else None
              | EmptyString => None
              end
        | EmptyString => None
        end
  | EmptyString => None
  end.

(** The same on a string read backwards: the bytes of a character come
    last byte first. *)
Definition ws_prefix_rev (s : string) : option string :=
  match s with
  | String a r1 =>
      if is_space1 a then Some r1
      else
        match r1 with
        | String b r2 =>
            if is_space2 b a then Some r2
            else
              match r2 with
              | String c r3 => if is_space3 c b a then Some r3 else None
              | EmptyString => None
              end
        | EmptyString => None
        end
  | EmptyString => None
  end.

(** Remove leading characters as long as [next] finds one; [n] bounds the
    number of steps. *)
Fixpoint drop_while (next : string -> option string) (n : nat) (s : string)
  : string :=
  match n with
  | 0 => s
  | S n' =>
      match next s with
      | Some rest => drop_while next n' rest
      | None => s
      end
  end.

Fixpoint rev (s : string) : string :=
  match s with
  | EmptyString => EmptyString
  | String c rest => (rev rest ++ String c EmptyString)%string
  end.

(** [s.lstrip()], [s.rstrip()] and [s.strip()]. *)
Definition lstrip (s : string) : string :=
  drop_while ws_prefix (String.length s) s.

Definition rstrip (s : string) : string :=
  rev (drop_while ws_prefix_rev (String.length s) (rev s)).

Definition strip (s : string) : string := rstrip (lstrip s).

(** [s] consists of whitespace characters only (the empty string
    included): stripping it on the left leaves nothing. *)
Definition blank (s : string) : bool := negb (PyStr.truthy (lstrip s)).

(** [s] is a sequence of pieces each of which [next] removes as a whole. *)
Inductive run_of (next : string -> option string) : string -> Prop :=
| run_nil : run_of next ""
| run_cons (w rest : string) :
    next w = Some "" -> run_of next rest -> run_of next (w ++ rest).

End PyText.

(** [job_titles_list = [title.strip() for title in job_titles.split(",")]]. *)
Definition job_titles_list_of (job_titles : string) : list string :=
  map PyText.strip (PyText.split "," job_titles).

(** ** The download link *)

Module Base64.

Definition alphabet : string :=
  "ABCDEFGHIJKLMNOPQRSTUVWXYZabcdefghijklmnopqrstuvwxyz0123456789+/".

Definition pad : ascii := "="%char.

(** The character of a six-bit value. *)
Definition digit (n : nat) : ascii :=
  match String.get n alphabet with
  | Some c => c
  | None => pad
  end.

(** The six-bit value of a character of the alphabet. *)
Fixpoint position (c : ascii) (s : string) (n : nat) : option nat :=
  match s with
  | EmptyString => None
  | String d rest => if Ascii.eqb d c then Some n else position c rest (S n)
  end.

Definition value (c : ascii) : option nat := position c alphabet 0.

(** [base64.b64encode]: three bytes give four characters; a last group of
    one or two bytes is padded with [=]. *)
Fixpoint b64encode (bs : string) : string :=
  match bs with
  | EmptyString => EmptyString
  | String a EmptyString =>
      let x := nat_of_ascii a in
      String (digit (x / 4))
        (String (digit (x mod 4 * 16)) (String pad (String pad EmptyString)))
  | String a (String b EmptyString) =>
      let x := nat_of_ascii a in
      let y := nat_of_ascii b in
      String (digit (x / 4))
        (String (digit (x mod 4 * 16 + y / 16))
           (String (digit (y mod 16 * 4)) (String pad EmptyString)))
  | String a (String b (String c rest)) =>
      let x := nat_of_ascii a in
      let y := nat_of_ascii b in
      let z := nat_of_ascii c in
      String (digit (x / 4))
        (String (digit (x mod 4 * 16 + y / 16))
           (String (digit (y mod 16 * 4 + z / 64))
              (String (digit (z mod 64)) (b64encode rest))))
  end.

(** The decoder of the same alphabet: four characters give three bytes;
    padding is accepted in the last group only. *)
Fixpoint b64decode (s : string) : option string :=
  match s with
  | EmptyString => Some EmptyString
  | String c1 (String c2 (String c3 (String c4 rest))) =>
      match value c1, value c2 with
      | Some v1, Some v2 =>
          let b1 := ascii_of_nat (v1 * 4 + v2 / 16) in
          if Ascii.eqb c3 pad then
            if Ascii.eqb c4 pad && negb (PyStr.truthy rest)
            then Some (String b1 EmptyString)
            else None
          else
            match value c3 with
            | Some v3 =>
                let b2 := ascii_of_nat (v2 mod 16 * 16 + v3 / 4) in
                if Ascii.eqb c4 pad then
                  if negb (PyStr.truthy rest)
                  then Some (String b1 (String b2 EmptyString))
                  else None
                else
                  match value c4 with
                  | Some v4 =>
                      let b3 := ascii_of_nat (v3 mod 4 * 64 + v4) in
                      match b64decode rest with
                      | Some bytes => Some (String b1 (String b2 (String b3 bytes)))
                      | None => None
                      end
                  | None => None
                  end
            | None => None
            end
      | _, _ => None
      end
  | _ => None
  end.

(** The characters an encoding may consist of: the alphabet and the
    padding. *)
Definition is_b64_char (c : ascii) : bool :=
  match value c with
  | Some _ => true
  | None => Ascii.eqb c pad
  end.

Fixpoint all_chars (p : ascii -> bool) (s : string) : bool :=
  match s with
  | EmptyString => true
  | String c rest => p c && all_chars p rest
  end.

End Base64.

(** The double quote, as a string. *)
Definition dquote : string := String (ascii_of_nat 34) EmptyString.

(** [get_csv_download_link(df, filename)].  [to_csv] stands for
    [df.to_csv(index=False)]; the text is UTF-8, so [csv.encode()] and the
    final [.decode()] leave the bytes as they are. *)
Definition get_csv_download_link (to_csv : DataFrame -> string)
    (df : DataFrame) (filename : string) : string :=
  let csv := to_csv df in
  let b64 := Base64.b64encode csv in
  ("<a href=" ++ dquote ++ "data:file/csv;base64," ++ b64 ++ dquote
     ++ " download=" ++ dquote ++ filename ++ dquote
     ++ ">Download CSV File</a>")%string.

(** The value of the first attribute of a tag: the text between the first
    double quote and the next one. *)
Fixpoint until_quote (s : string) : string :=
  match s with
  | EmptyString => EmptyString
  | String c rest =>
      if Ascii.eqb c (ascii_of_nat 34) then EmptyString
      else String c (until_quote rest)
  end.

Fixpoint first_attribute (s : string) : string :=
  match s with
  | EmptyString => EmptyString
  | String c rest =>
      if Ascii.eqb c (ascii_of_nat 34) then until_quote rest
      else first_attribute rest
  end.

(** * Properties *)

(** ** Strings *)

Module PyStrFacts.
Import PyStr.

Lemma startswith_refl_app (p s : string) : startswith p (p ++ s)%string = true.
Proof.
  induction p as [|a p IH]; simpl; [reflexivity|].
  now rewrite Ascii.eqb_refl, IH.
Qed.

Lemma contains_startswith (p s : string) :
  startswith p s = true -> contains p s = true.
Proof. intros H. destruct s; simpl in *; rewrite H; reflexivity. Qed.

Lemma contains_cons (p : string) (c : ascii) (s : string) :
  contains p s = true -> contains p (String c s) = true.
Proof. intros H. simpl. rewrite H. apply orb_true_r. Qed.

(** A string occurs in whatever is put around it. *)
Lemma contains_middle (pre p post : string) :
  contains p (pre ++ p ++ post)%string = true.
Proof.
  induction pre as [|c pre IH]; simpl String.append.
  - apply contains_startswith, startswith_refl_app.
  - apply contains_cons, IH.
Qed.

Lemma contains_suffix (pre p : string) : contains p (pre ++ p)%string = true.
Proof.
  induction pre as [|c pre IH]; simpl String.append.
  - apply contains_startswith.
    induction p as [|a p IHp]; simpl; [reflexivity|].
    now rewrite Ascii.eqb_refl, IHp.
  - apply contains_cons, IH.
Qed.

Lemma has_char_app (c : ascii) (a b : string) :
  has_char c (a ++ b)%string = has_char c a || has_char c b.
Proof.
  induction a as [|d a IH]; simpl; [reflexivity|].
  now rewrite IH, orb_assoc.
Qed.

(** Replacing a character by a string that does not contain it leaves no
    occurrence. *)
Lemma replace_removes (old : ascii) (new s : string) :
  has_char old new = false -> has_char old (replace old new s) = false.
Proof.
  intros Hnew. induction s as [|c s IH]; simpl; [reflexivity|].
  destruct (Ascii.eqb c old) eqn:E.
  - now rewrite has_char_app, Hnew, IH.
  - simpl. now rewrite E, IH.
Qed.

Lemma append_assoc (a b c : string) :
  (a ++ (b ++ c) = (a ++ b) ++ c)%string.
Proof. induction a as [|x a IH]; simpl; [reflexivity|]. now rewrite IH. Qed.

Lemma replace_app (old : ascii) (new a b : string) :
  replace old new (a ++ b) = (replace old new a ++ replace old new b)%string.
Proof.
  induction a as [|c a IH]; simpl; [reflexivity|].
  destruct (Ascii.eqb c old); simpl; rewrite IH; [|reflexivity].
  now rewrite append_assoc.
Qed.

Lemma length_app (a b : string) :
  String.length (a ++ b) = String.length a + String.length b.
Proof. induction a as [|c a IH]; simpl; [reflexivity|]. now rewrite IH. Qed.

Lemma replace_length (old : ascii) (new s : string) :
  String.length (replace old new s) + count_char old s
  = String.length s + count_char old s * String.length new.
Proof.
  induction s as [|c s IH]; [reflexivity|].
  cbn [replace count_char String.length].
  destruct (Ascii.eqb c old).
  - rewrite length_app. lia.
  - cbn [String.length]. lia.
Qed.

(** A pattern without the character [c] cannot straddle an occurrence of
    [c]. *)
Lemma startswith_sep (p a b : string) (c : ascii) :
  has_char c p = false ->
  startswith p (a ++ String c b)%string = startswith p a.
Proof.
  revert a. induction p as [|x p IH]; intros a Hc; simpl; [reflexivity|].
  simpl in Hc. apply orb_false_elim in Hc as [Hx Hp].
  destruct a as [|y a]; simpl.
  - now rewrite Hx.
  - now rewrite IH.
Qed.

Lemma contains_sep (p a b : string) (c : ascii) :
  has_char c p = false ->
  contains p (a ++ String c b)%string = contains p a || contains p b.
Proof.
  intros Hc. induction a as [|y a IH].
  - simpl String.append.
    change (contains p (String c b))
      with (startswith p (String c b) || contains p b).
    change (String c b) with (EmptyString ++ String c b)%string at 1.
    rewrite (startswith_sep p EmptyString b c Hc).
    destruct p; simpl; reflexivity.
  - simpl String.append.
    change (contains p (String y (a ++ String c b)))
      with (startswith p (String y (a ++ String c b))
            || contains p (a ++ String c b)%string).
    change (String y (a ++ String c b)) with (String y a ++ String c b)%string.
    rewrite (startswith_sep p (String y a) b c Hc), IH.
    simpl. now rewrite orb_assoc.
Qed.

End PyStrFacts.

(** ** The URL *)

Section LinkFacts.
Import PyStr PyStrFacts.

Variables job_title location : string.

Let kw := job_param job_title.
Let loc := location_param location.

Lemma link_any :
  link job_title location (time_range_param AnyTime)
  = (base_url ++ "?keywords=" ++ kw ++ "&location=" ++ loc)%string.
Proof. reflexivity. Qed.

Lemma link_window (t : TimeRange) :
  link job_title location (time_range_param t)
  = (link job_title location (time_range_param AnyTime)
     ++ match t with
        | AnyTime => ""
        | _ => "&f_TPR=" ++ time_range_param t
        end)%string.
Proof.
  assert (Hnil : forall s : string, (s ++ "")%string = s).
  { induction s as [|c s IH]; simpl; [reflexivity|]. now rewrite IH. }
  destruct t; cbn [time_range_param link truthy];
    rewrite ?Hnil; try reflexivity;
    unfold link; cbn [truthy];
    fold kw loc; rewrite <- !append_assoc; reflexivity.
Qed.

Lemma params_without_space :
  has_char space kw = false /\ has_char space loc = false.
Proof. split; apply replace_removes; reflexivity. Qed.

Lemma link_without_space (t : TimeRange) :
  has_char space (link job_title location (time_range_param t)) = false.
Proof.
  destruct params_without_space as [Hk Hl].
  rewrite link_window, link_any, !has_char_app, Hk, Hl.
  destruct t; reflexivity.
Qed.

Lemma link_contains_params (t : TimeRange) :
  contains kw (link job_title location (time_range_param t)) = true
  /\ contains loc (link job_title location (time_range_param t)) = true.
Proof.
  rewrite link_window, link_any. split.
  - rewrite <- !append_assoc.
    exact (contains_middle (base_url ++ "?keywords=") kw _).
  - set (w := match t with AnyTime => "" | _ => _ end).
    replace ((base_url ++ "?keywords=" ++ kw ++ "&location=" ++ loc) ++ w)%string
      with ((base_url ++ "?keywords=" ++ kw ++ "&location=") ++ loc ++ w)%string.
    + apply contains_middle.
    + rewrite <- !append_assoc. reflexivity.
Qed.

Lemma link_contains_window (t : TimeRange) :
  contains (match t with
            | AnyTime => ""
            | _ => "&f_TPR=" ++ time_range_param t
            end)
           (link job_title location (time_range_param t)) = true.
Proof. rewrite link_window. apply contains_suffix. Qed.

Lemma link_any_no_window :
  contains "f_TPR" (link job_title location (time_range_param AnyTime))
  = contains "f_TPR" kw || contains "f_TPR" loc.
Proof.
  rewrite link_any.
  change (base_url ++ "?keywords=" ++ kw ++ "&location=" ++ loc)%string
    with ("https://www.linkedin.com/jobs/search?keywords"
          ++ String "="%char (kw ++ String "&"%char ("location" ++ String "="%char loc)))%string.
  rewrite !contains_sep by reflexivity.
  reflexivity.
Qed.

End LinkFacts.

(** C4, as the script has it.  The link is a function of the job title,
    the location and the time range alone.  It is the base address followed by [keywords] and
    [location], each with every space replaced by [%20] (so no space is left
    anywhere in the link, and both encoded values occur in it), followed by
    [&f_TPR=r86400], [&f_TPR=r604800] or [&f_TPR=r2592000] for the past day,
    week or month, and by nothing for "Any Time": then [f_TPR] occurs in the
    link only where the encoded title or location themselves contain it. *)
Theorem link_of_query (job_title location : string) :
  (forall t,
     link job_title location (time_range_param t)
     = (base_url ++ "?keywords=" ++ PyStr.replace " " "%20" job_title
          ++ "&location=" ++ PyStr.replace " " "%20" location
          ++ match t with
             | Past24Hours => "&f_TPR=r86400"
             | PastWeek => "&f_TPR=r604800"
             | PastMonth => "&f_TPR=r2592000"
             | AnyTime => ""
             end)%string)
  /\ (forall t,
        PyStr.has_char " " (link job_title location (time_range_param t)) = false)
  /\ (forall t,
        PyStr.contains (PyStr.replace " " "%20" job_title)
          (link job_title location (time_range_param t)) = true
        /\ PyStr.contains (PyStr.replace " " "%20" location)
             (link job_title location (time_range_param t)) = true)
  /\ PyStr.contains "&f_TPR=r86400"
       (link job_title location (time_range_param Past24Hours)) = true
  /\ PyStr.contains "&f_TPR=r604800"
       (link job_title location (time_range_param PastWeek)) = true
  /\ PyStr.contains "&f_TPR=r2592000"
       (link job_title location (time_range_param PastMonth)) = true
  /\ PyStr.contains "f_TPR" (link job_title location (time_range_param AnyTime))
     = PyStr.contains "f_TPR" (PyStr.replace " " "%20" job_title)
       || PyStr.contains "f_TPR" (PyStr.replace " " "%20" location).
Proof.
  repeat split.
  - intros t. rewrite link_window, link_any.
    unfold job_param, location_param, PyStr.space.
    rewrite <- !PyStrFacts.append_assoc. destruct t; reflexivity.
  - apply link_without_space.
  - apply (link_contains_params job_title location t).
  - apply (link_contains_params job_title location t).
  - exact (link_contains_window job_title location Past24Hours).
  - exact (link_contains_window job_title location PastWeek).
  - exact (link_contains_window job_title location PastMonth).
  - apply link_any_no_window.
Qed.

(** C4 as the specification states it does not hold: only spaces are
    encoded, so with the job title [a&f_TPR=r86400] and "Any Time" the link
    carries the time-window parameter of the past day. *)
Lemma any_time_window_counterexample :
  link "a&f_TPR=r86400" "India" (time_range_param AnyTime)
  = "https://www.linkedin.com/jobs/search?keywords=a&f_TPR=r86400&location=India"
  /\ PyStr.contains "&f_TPR=r86400"
       (link "a&f_TPR=r86400" "India" (time_range_param AnyTime)) = true.
Proof. split; reflexivity. Qed.

(** ** Counting in the records *)

Lemma isinstance_Exception_all (e : exn) : isinstance_Exception e = true.
Proof. destruct e; reflexivity. Qed.

Lemma navigations_app (link : string) (a b : list Event) :
  navigations link (a ++ b) = navigations link a + navigations link b.
Proof. unfold navigations. now rewrite filter_app, length_app. Qed.

Lemma rounds_started_app (a b : list Event) :
  rounds_started (a ++ b) = rounds_started a + rounds_started b.
Proof. unfold rounds_started. now rewrite filter_app, length_app. Qed.

Lemma launches_app (a b : list Event) :
  launches (a ++ b) = launches a + launches b.
Proof. unfold launches. now rewrite filter_app, length_app. Qed.

Lemma quits_app (a b : list Event) : quits (a ++ b) = quits a + quits b.
Proof. unfold quits. now rewrite filter_app, length_app. Qed.

Lemma restarts_app (a b : list Ui) : restarts (a ++ b) = restarts a + restarts b.
Proof. unfold restarts. now rewrite filter_app, length_app. Qed.

Lemma progress_reports_app (a b : list Ui) :
  progress_reports (a ++ b) = progress_reports a ++ progress_reports b.
Proof. unfold progress_reports. apply flat_map_app. Qed.

Lemma hrefs_read_app (a b : list Event) :
  hrefs_read (a ++ b) = hrefs_read a ++ hrefs_read b.
Proof. unfold hrefs_read. apply flat_map_app. Qed.

(** ** Running the script *)

Ltac unfold_monad :=
  unfold bind, try_except, call, show, assign, ret, raise, on_driver in *.

(** Case split on the outcome of the next command. *)
Ltac case_call :=
  match goal with
  | |- context [match ?op ?b with pair _ _ => _ end] =>
      let b' := fresh "b" in
      let r := fresh "r" in
      let e := fresh "e" in
      let E := fresh "E" in
      destruct (op b) as [b' [r|e]] eqn:E; cbn;
      rewrite ?isinstance_Exception_all; cbn
  end.

Section Delta.

Context {B : Type} {browser : Browser B}.

Lemma delta_refl (s : St B) : delta s s [] [].
Proof. split; now rewrite app_nil_r. Qed.

Lemma delta_trans (s s1 s2 : St B) evs1 us1 evs2 us2 :
  delta s s1 evs1 us1 -> delta s1 s2 evs2 us2 ->
  delta s s2 (evs1 ++ evs2) (us1 ++ us2).
Proof.
  intros [H1 H2] [H3 H4]. split.
  - now rewrite H3, H1, app_assoc.
  - now rewrite H4, H2, app_assoc.
Qed.

Lemma delta_inj (s s' : St B) evs us evs' us' :
  delta s s' evs us -> delta s s' evs' us' -> evs = evs' /\ us = us'.
Proof.
  intros [H1 H2] [H3 H4]. rewrite H1 in H3. rewrite H2 in H4.
  split; eapply app_inv_head; eauto.
Qed.

End Delta.

Section GetDriver.

Context {B : Type} {browser : Browser B}.

(** The messages of [get_driver] are neither progress reports nor
    restart warnings. *)
Lemma progress_reports_init (es : list exn) :
  progress_reports (map UiErrorInit es) = [].
Proof. induction es as [|e es IH]; [reflexivity|exact IH]. Qed.

Lemma restarts_init (es : list exn) : restarts (map UiErrorInit es) = 0.
Proof. induction es as [|e es IH]; [reflexivity|exact IH]. Qed.


(** Once a value is stored, [get_driver] returns it, shows the stored
    messages again and does nothing else. *)
Lemma get_driver_cached (s : St B) (v : option WebDriver) :
  cached s = Some v ->
  get_driver s = (set_ui (ui s ++ map UiErrorInit (cached_errors s)) s, inl v).
Proof. intros H. unfold get_driver, cache_resource. now rewrite H. Qed.

(** [get_driver] never raises, and leaves its result in the store. *)
Lemma get_driver_returns (s : St B) :
  exists v, snd (get_driver s) = inl v /\ cached (fst (get_driver s)) = Some v.
Proof.
  unfold get_driver, cache_resource.
  destruct (cached s) as [v|] eqn:Hc.
  - exists v. split; [reflexivity|exact Hc].
  - unfold_monad. case_call; eexists; split; reflexivity.
Qed.

(** What a call of [get_driver] adds to the records: the stored messages
    when the store is filled, otherwise the start of the browser and, when
    that fails, the error message. *)
Lemma get_driver_delta (s : St B) :
  let s' := fst (get_driver s) in
  (cached s <> None
   /\ s' = set_ui (ui s ++ map UiErrorInit (cached_errors s)) s)
  \/ (cached s = None
      /\ exists r,
           Chrome (world s) = (world s', r)
           /\ match r with
              | inl d =>
                  delta s s' [(CallChrome, RetDriver d)] []
                  /\ snd (get_driver s) = inl (Some d)
              | inr e =>
                  delta s s' [(CallChrome, Raised e)] [UiErrorInit e]
                  /\ snd (get_driver s) = inl None
              end).
Proof.
  unfold get_driver, cache_resource.
  destruct (cached s) as [v|] eqn:Hc; cbn.
  - left. split; [discriminate|reflexivity].
  - right. split; [reflexivity|]. unfold_monad.
    destruct (Chrome (world s)) as [b [d|e]] eqn:E; cbn;
      rewrite ?isinstance_Exception_all; cbn;
      eexists; (split; [reflexivity|]); unfold delta; cbn;
      rewrite ?app_nil_r; repeat split; reflexivity.
Qed.

Lemma get_driver_frame (s : St B) :
  let s' := fst (get_driver s) in
  driver s' = driver s /\ columns s' = columns s.
Proof.
  unfold get_driver, cache_resource, columns.
  destruct (cached s) as [v|] eqn:Hc; cbn; [split; reflexivity|].
  unfold_monad. case_call; split; reflexivity.
Qed.

End GetDriver.

Section Cards.

Context {B : Type} {browser : Browser B}.

(** The body of the card loop never raises: the loop always goes on to
    the next container. *)
Lemma scrape_card_returns (card : WebElement) (s : St B) :
  snd (scrape_card card s) = inl tt.
Proof.
  destruct s. unfold scrape_card. unfold_monad. cbn.
  repeat case_call; reflexivity.
Qed.

(** What one container adds to the four columns, by the outcome of the
    reads on its title anchor. *)
Lemma scrape_card_columns (card : WebElement) (s : St B) :
  columns (fst (scrape_card card s))
  = match anchor_outcome card (world s) with
    | NoAnchor | NoHref => columns s
    | NoTitle u =>
        (job_titles_list s, company_names s, locations_list s, job_urls s ++ [u])
    | Anchor u t b =>
        (job_titles_list s ++ [t],
         company_names s ++ [snd (secondary card company_name b)],
         locations_list s
           ++ [snd (secondary card metadata_item
                      (fst (secondary card company_name b)))],
         job_urls s ++ [u])
    end.
Proof.
  destruct s. unfold scrape_card, anchor_outcome, secondary, columns.
  unfold_monad. cbn.
  repeat case_call; try reflexivity.
  all: repeat match goal with
              | H : _ = (_, _) |- _ => rewrite H; cbn
              end; reflexivity.
Qed.

(** What one container adds to the records, and what it leaves alone. *)
Lemma scrape_card_effects (card : WebElement) (s : St B) :
  exists evs,
    delta s (fst (scrape_card card s)) evs []
    /\ job_urls (fst (scrape_card card s)) = job_urls s ++ hrefs_read evs
    /\ rounds_started evs = 0
    /\ launches evs = 0
    /\ quits evs = 0
    /\ (forall l, navigations l evs = 0)
    /\ driver (fst (scrape_card card s)) = driver s
    /\ cached (fst (scrape_card card s)) = cached s.
Proof.
  destruct s. unfold scrape_card, delta. unfold_monad. cbn.
  repeat case_call.
  all: eexists; split;
    [split; [rewrite <- ?app_assoc; reflexivity | symmetry; apply app_nil_r]|];
    cbn; rewrite ?app_nil_r; repeat split; reflexivity.
Qed.

Lemma scrape_cards_cons (card : WebElement) (rest : list WebElement) (s : St B) :
  scrape_cards (card :: rest) s = scrape_cards rest (fst (scrape_card card s)).
Proof.
  unfold scrape_cards. cbn [for_each]. unfold bind.
  pose proof (scrape_card_returns card s) as H.
  destruct (scrape_card card s) as [s' r]. cbn in *. now subst r.
Qed.

Lemma scrape_cards_app (pre post : list WebElement) (s : St B) :
  scrape_cards (pre ++ post) s = scrape_cards post (fst (scrape_cards pre s)).
Proof.
  revert s. induction pre as [|c pre IH]; intros s; [reflexivity|].
  cbn [app]. now rewrite !scrape_cards_cons, IH.
Qed.

(** The card loop never raises. *)
Lemma scrape_cards_returns (cards : list WebElement) (s : St B) :
  snd (scrape_cards cards s) = inl tt.
Proof.
  revert s. induction cards as [|c cards IH]; intros s; [reflexivity|].
  now rewrite scrape_cards_cons.
Qed.

Lemma scrape_cards_effects (cards : list WebElement) (s : St B) :
  exists evs,
    delta s (fst (scrape_cards cards s)) evs []
    /\ job_urls (fst (scrape_cards cards s)) = job_urls s ++ hrefs_read evs
    /\ rounds_started evs = 0
    /\ launches evs = 0
    /\ quits evs = 0
    /\ (forall l, navigations l evs = 0)
    /\ driver (fst (scrape_cards cards s)) = driver s
    /\ cached (fst (scrape_cards cards s)) = cached s.
Proof.
  revert s. induction cards as [|c cards IH]; intros s.
  - exists []. cbn. unfold delta. rewrite !app_nil_r. repeat split.
  - rewrite scrape_cards_cons.
    destruct (scrape_card_effects c s)
      as (e1 & D1 & U1 & R1 & L1 & Q1 & N1 & Dr1 & C1).
    destruct (IH (fst (scrape_card c s)))
      as (e2 & D2 & U2 & R2 & L2 & Q2 & N2 & Dr2 & C2).
    exists (e1 ++ e2). repeat split.
    + apply (delta_trans _ _ _ _ _ _ _ D1 D2).
    + apply (delta_trans _ _ _ _ _ _ _ D1 D2).
    + now rewrite U2, U1, hrefs_read_app, app_assoc.
    + rewrite rounds_started_app. lia.
    + rewrite launches_app. lia.
    + rewrite quits_app. lia.
    + intros l. rewrite navigations_app, N1, N2. reflexivity.
    + congruence.
    + congruence.
Qed.

(** Every column only grows, one container after the other: what was
    extracted stays, whatever happens at later containers. *)
Lemma scrape_card_extends (card : WebElement) (s : St B) :
  exists t c l u,
    columns (fst (scrape_card card s))
    = (job_titles_list s ++ t, company_names s ++ c,
       locations_list s ++ l, job_urls s ++ u).
Proof.
  rewrite scrape_card_columns.
  destruct (anchor_outcome card (world s)); unfold columns.
  - exists [], [], [], []. now rewrite !app_nil_r.
  - exists [], [], [], []. now rewrite !app_nil_r.
  - exists [], [], [], [url]. now rewrite !app_nil_r.
  - eexists _, _, _, _. reflexivity.
Qed.

Lemma scrape_cards_extends (cards : list WebElement) (s : St B) :
  exists t c l u,
    columns (fst (scrape_cards cards s))
    = (job_titles_list s ++ t, company_names s ++ c,
       locations_list s ++ l, job_urls s ++ u).
Proof.
  revert s. induction cards as [|card cards IH]; intros s.
  - exists [], [], [], []. cbn. unfold columns. now rewrite !app_nil_r.
  - rewrite scrape_cards_cons.
    destruct (scrape_card_extends card s) as (t1 & c1 & l1 & u1 & H1).
    destruct (IH (fst (scrape_card card s))) as (t2 & c2 & l2 & u2 & H2).
    unfold columns in *. inversion H1 as [[Ht Hc Hl Hu]].
    rewrite H2, Ht, Hc, Hl, Hu.
    exists (t1 ++ t2), (c1 ++ c2), (l1 ++ l2), (u1 ++ u2).
    now rewrite !app_assoc.
Qed.

(** Lengths of the columns after a batch: a url for every container whose
    [href] was read, an entry in the other three only when the title was
    read as well. *)
Lemma scrape_cards_lengths (cards : list WebElement) (s : St B) :
  let s' := fst (scrape_cards cards s) in
  let outs := anchor_outcomes cards s in
  List.length (job_urls s')
  = List.length (job_urls s) + List.length (filter is_anchor outs)
    + List.length (filter is_no_title outs)
  /\ List.length (job_titles_list s')
     = List.length (job_titles_list s) + List.length (filter is_anchor outs)
  /\ List.length (company_names s')
     = List.length (company_names s) + List.length (filter is_anchor outs)
  /\ List.length (locations_list s')
     = List.length (locations_list s) + List.length (filter is_anchor outs).
Proof.
  revert s. induction cards as [|card cards IH]; intros s; cbn zeta.
  - cbn. repeat split; lia.
  - rewrite scrape_cards_cons. cbn [anchor_outcomes].
    specialize (IH (fst (scrape_card card s))). cbn zeta in IH.
    destruct IH as (Hu & Ht & Hc & Hl).
    pose proof (scrape_card_columns card s) as H.
    rewrite Hu, Ht, Hc, Hl.
    destruct (anchor_outcome card (world s)); unfold columns in H;
      inversion H as [[Et Ec El Eu]]; rewrite Et, Ec, El, Eu;
      cbn [filter is_anchor is_no_title List.length];
      rewrite ?length_app; cbn [List.length]; repeat split; lia.
Qed.

Lemma anchor_outcomes_length (cards : list WebElement) (s : St B) :
  List.length (anchor_outcomes cards s) = List.length cards.
Proof.
  revert s. induction cards as [|c cards IH]; intros s; cbn; [reflexivity|].
  now rewrite IH.
Qed.

Lemma outcomes_partition (outs : list (@AnchorOutcome B)) :
  In NoAnchor outs ->
  List.length (filter is_anchor outs) + List.length (filter is_no_title outs)
  < List.length outs.
Proof.
  assert (Hle : forall l : list (@AnchorOutcome B),
             List.length (filter is_anchor l) + List.length (filter is_no_title l)
             <= List.length l).
  { induction l as [|o l IHl]; cbn; [lia|]. destruct o; cbn; lia. }
  induction outs as [|o outs IH]; intros Hin; [contradiction|].
  destruct Hin as [->|Hin].
  - cbn. specialize (Hle outs). lia.
  - specialize (IH Hin). destruct o; cbn; lia.
Qed.

End Cards.

(** ** The record extractor *)

Section Extractor.

Context {B : Type} {browser : Browser B}.

(** C2.  For a container whose title anchor is found and whose [href] and
    text are read, the four columns each receive exactly one entry: the
    url and the title that were read, and for company and location each
    its own text or, when its lookup fails, "N/A".  A failed company
    lookup leaves url, title and location as extracted; a failed location
    lookup leaves url, title and company as extracted; both may fail
    together; none of this raises. *)
Theorem secondary_fields_isolated
    (card : WebElement) (s : St B) (a : WebElement) (u : option string)
    (t : string) (b1 b2 b3 : B) :
  find_element card title_anchor (world s) = (b1, inl a) ->
  get_attribute a "href" b1 = (b2, inl u) ->
  text a b2 = (b3, inl t) ->
  snd (scrape_card card s) = inl tt
  /\ (forall b4 e b5 l b6 p,
        find_element card company_name b3 = (b4, inr e) ->
        find_element card metadata_item b4 = (b5, inl l) ->
        text l b5 = (b6, inl p) ->
        columns (fst (scrape_card card s))
        = (job_titles_list s ++ [t], company_names s ++ ["N/A"],
           locations_list s ++ [p], job_urls s ++ [u]))
  /\ (forall b4 c b5 n b6 e,
        find_element card company_name b3 = (b4, inl c) ->
        text c b4 = (b5, inl n) ->
        find_element card metadata_item b5 = (b6, inr e) ->
        columns (fst (scrape_card card s))
        = (job_titles_list s ++ [t], company_names s ++ [n],
           locations_list s ++ ["N/A"], job_urls s ++ [u]))
  /\ (forall b4 e b5 e',
        find_element card company_name b3 = (b4, inr e) ->
        find_element card metadata_item b4 = (b5, inr e') ->
        columns (fst (scrape_card card s))
        = (job_titles_list s ++ [t], company_names s ++ ["N/A"],
           locations_list s ++ ["N/A"], job_urls s ++ [u]))
  /\ exists c l,
       columns (fst (scrape_card card s))
       = (job_titles_list s ++ [t], company_names s ++ [c],
          locations_list s ++ [l], job_urls s ++ [u]).
Proof.
  intros Ha Hu Ht.
  assert (Ho : anchor_outcome card (world s) = Anchor u t b3).
  { unfold anchor_outcome. now rewrite Ha, Hu, Ht. }
  split; [apply scrape_card_returns|].
  rewrite scrape_card_columns, Ho. unfold secondary.
  repeat split.
  - intros b4 e b5 l b6 p Hc Hl Hp. now rewrite Hc; cbn; rewrite Hl, Hp.
  - intros b4 c b5 n b6 e Hc Hn Hl. now rewrite Hc, Hn; cbn; rewrite Hl.
  - intros b4 e b5 e' Hc Hl. now rewrite Hc; cbn; rewrite Hl.
  - eexists _, _. reflexivity.
Qed.

(** C6.  When the title anchor of a container cannot be located, the only
    thing that happens for that container is the failed lookup: nothing
    else of it is read and none of the four columns changes.  In a batch
    in which one container lacks its anchor and every other one has its
    url and title read, each column ends up with one entry fewer than
    there are containers. *)
Theorem missing_anchor_no_record :
  (forall (card : WebElement) (s : St B) (b : B) (e : exn),
      find_element card title_anchor (world s) = (b, inr e) ->
      scrape_card card s
      = (set_calls (calls s ++ [(CallFindElement card title_anchor, Raised e)])
           (set_world b s), inl tt)
      /\ columns (fst (scrape_card card s)) = columns s)
  /\ (forall (cards : list WebElement) (s : St B),
        In NoAnchor (anchor_outcomes cards s) ->
        List.length (filter is_anchor (anchor_outcomes cards s)) + 1
        = List.length cards ->
        let s' := fst (scrape_cards cards s) in
        snd (scrape_cards cards s) = inl tt
        /\ List.length (job_urls s') + 1
           = List.length (job_urls s) + List.length cards
        /\ List.length (job_titles_list s') + 1
           = List.length (job_titles_list s) + List.length cards
        /\ List.length (company_names s') + 1
           = List.length (company_names s) + List.length cards
        /\ List.length (locations_list s') + 1
           = List.length (locations_list s) + List.length cards).
Proof.
  split.
  - intros card s b e H. split.
    + destruct s. unfold scrape_card. unfold_monad. cbn in *. rewrite H. cbn.
      now rewrite isinstance_Exception_all.
    + rewrite scrape_card_columns. unfold anchor_outcome. now rewrite H.
  - intros cards s Hin Hcount s'.
    split; [apply scrape_cards_returns|].
    destruct (scrape_cards_lengths cards s) as (Hu & Ht & Hc & Hl).
    pose proof (outcomes_partition _ Hin) as Hp.
    rewrite anchor_outcomes_length in Hp.
    subst s'. rewrite Hu, Ht, Hc, Hl. repeat split; lia.
Qed.

(** Each container does one of three things to the columns: nothing, one
    entry in each, or one entry in the url column alone; the last happens
    exactly when the title read raises after the [href] read returned. *)
Lemma scrape_card_trichotomy (card : WebElement) (s : St B) :
  let s' := fst (scrape_card card s) in
  columns s' = columns s
  \/ (exists t c l u,
        columns s' = (job_titles_list s ++ [t], company_names s ++ [c],
                      locations_list s ++ [l], job_urls s ++ [u]))
  \/ (exists u,
        anchor_outcome card (world s) = NoTitle u
        /\ columns s' = (job_titles_list s, company_names s,
                         locations_list s, job_urls s ++ [u])).
Proof.
  cbn zeta. rewrite scrape_card_columns.
  destruct (anchor_outcome card (world s)) as [| |u|u t b].
  - now left.
  - now left.
  - right. right. now exists u.
  - right. left. eexists _, _, _, _. reflexivity.
Qed.

End Extractor.

(** C2 and C6 at containers of a stub page. *)

Lemma secondary_fields_isolated_witness :
  let s := Stub.fresh
             (Stub.page false true [] None
                [Stub.no_company "x"; Stub.no_place "y"; Stub.bare "z"]) in
  columns (fst (scrape_card 10 s))
  = (["x"], ["N/A"], ["Pune"], [Some "https://example.org/x"])
  /\ columns (fst (scrape_card 20 s))
     = (["y"], ["Acme"], ["N/A"], [Some "https://example.org/y"])
  /\ columns (fst (scrape_card 30 s))
     = (["z"], ["N/A"], ["N/A"], [Some "https://example.org/z"]).
Proof.
  cbn zeta.
  set (s := Stub.fresh _).
  split; [|split].
  - refine (proj1 (proj2
      (secondary_fields_isolated 10 s 11 (Some "https://example.org/x") "x"
         (world s) (world s) (world s) eq_refl eq_refl eq_refl))
      (world s) NoSuchElementException (world s) 13 (world s) "Pune"
      eq_refl eq_refl eq_refl).
  - refine (proj1 (proj2 (proj2
      (secondary_fields_isolated 20 s 21 (Some "https://example.org/y") "y"
         (world s) (world s) (world s) eq_refl eq_refl eq_refl)))
      (world s) 22 (world s) "Acme" (world s) NoSuchElementException
      eq_refl eq_refl eq_refl).
  - refine (proj1 (proj2 (proj2 (proj2
      (secondary_fields_isolated 30 s 31 (Some "https://example.org/z") "z"
         (world s) (world s) (world s) eq_refl eq_refl eq_refl))))
      (world s) NoSuchElementException (world s) NoSuchElementException
      eq_refl eq_refl).
Defined.

Lemma missing_anchor_no_record_witness :
  let s := Stub.fresh
             (Stub.page false true [] None
                [Stub.full "x"; Stub.no_anchor; Stub.full "z"]) in
  columns (fst (scrape_card 20 s)) = columns s
  /\ List.length (job_urls (fst (scrape_cards [10; 20; 30] s))) + 1 = 0 + 3.
Proof.
  cbn zeta.
  set (s := Stub.fresh _).
  split.
  - exact (proj2 (proj1 missing_anchor_no_record 20 s (world s)
                    NoSuchElementException eq_refl)).
  - refine (proj1 (proj2 (proj2 missing_anchor_no_record [10; 20; 30] s _ _))).
    + vm_compute. right. left. reflexivity.
    + vm_compute. reflexivity.
Defined.

(** ** The scroll loop *)

(** Case split on a local variable that may be [None], and on the class of
    a raised exception. *)
Ltac case_var :=
  match goal with
  | |- context [match ?x with Some _ => _ | None => _ end] =>
      is_var x; destruct x
  | |- context [if isinstance_WebDriverException ?e then _ else _] =>
      is_var e; destruct e; cbn
  end.

Section Rounds.

Context {B : Type} {browser : Browser B}.

Lemma for_each_cons {X} (x : X) (rest : list X) (body : X -> M B unit) (s : St B) :
  for_each (x :: rest) body s
  = match body x s with
    | (s', inl _) => for_each rest body s'
    | (s', inr e) => (s', inr e)
    end.
Proof. reflexivity. Qed.

(** What one round adds to the records. *)
Lemma scroll_round_effects (link : string) (n i : nat) (s : St B) :
  exists evs us,
    delta s (fst (scroll_round link n i s)) evs us
    /\ rounds_started evs <= 1
    /\ (progress_reports us = [] \/ progress_reports us = [i + 1])
    /\ restarts us <= 1
    /\ quits evs = restarts us
    /\ match snd (scroll_round link n i s) with
       | inl _ => navigations link evs = restarts us
       | inr _ => navigations link evs <= restarts us
       end
    /\ hrefs_read evs = []
    /\ columns (fst (scroll_round link n i s)) = columns s.
Proof.
  destruct s.
  unfold scroll_round, restart_session, get_driver, cache_resource, delta, columns.
  unfold_monad. cbn.
  repeat (first [case_call | case_var]; cbn).
  all: eexists; eexists; split;
    [split; rewrite <- ?app_assoc; try reflexivity; symmetry; apply app_nil_r|].
  all: rewrite ?progress_reports_app, ?restarts_app,
         ?progress_reports_init, ?restarts_init.
  all: cbn; rewrite ?String.eqb_refl; cbn; repeat split; auto; lia.
Qed.

(** The session during a round: with a session in the store of
    [get_driver] and the same one in the local [driver], a round starts no
    browser and ends with that same session in both places, whether or not
    it went through "Restart session". *)
Lemma scroll_round_session (link : string) (n i : nat) (s : St B) (d : WebDriver) :
  cached s = Some (Some d) -> driver s = Some d ->
  cached (fst (scroll_round link n i s)) = Some (Some d)
  /\ driver (fst (scroll_round link n i s)) = Some d
  /\ exists evs us,
       delta s (fst (scroll_round link n i s)) evs us /\ launches evs = 0.
Proof.
  destruct s. cbn. intros -> ->.
  unfold scroll_round, restart_session, get_driver, cache_resource, delta.
  unfold_monad. cbn.
  repeat (first [case_call | case_var]; cbn).
  all: split; [reflexivity|]; split; [reflexivity|].
  all: eexists; eexists; split;
    [split; rewrite <- ?app_assoc; try reflexivity; symmetry; apply app_nil_r|].
  all: reflexivity.
Qed.

(** The rounds [a, a+1, ..., a+len-1] of a loop with [n] rounds in all. *)
Lemma scroll_rounds_effects (link : string) (n len a : nat) (s : St B) :
  let run := for_each (seq a len) (scroll_round link n) s in
  exists evs us,
    delta s (fst run) evs us
    /\ rounds_started evs <= len
    /\ StronglySorted lt (progress_reports us)
    /\ Forall (fun k => a + 1 <= k <= a + len) (progress_reports us)
    /\ quits evs = restarts us
    /\ match snd run with
       | inl _ => navigations link evs = restarts us
       | inr _ => navigations link evs <= restarts us
       end
    /\ hrefs_read evs = []
    /\ columns (fst run) = columns s.
Proof.
  cbn zeta. revert a s. induction len as [|len IH]; intros a s.
  - exists [], []. cbn. repeat split; auto using delta_refl; try constructor.
    + now rewrite app_nil_r.
    + now rewrite app_nil_r.
  - cbn [seq]. rewrite for_each_cons.
    destruct (scroll_round_effects link n a s)
      as (e1 & u1 & D1 & R1 & P1 & T1 & Q1 & N1 & H1 & C1).
    destruct (scroll_round link n a s) as [s1 [[]|e]] eqn:E; cbn [fst snd] in *.
    + destruct (IH (S a) s1) as (e2 & u2 & D2 & R2 & S2 & F2 & Q2 & N2 & H2 & C2).
      exists (e1 ++ e2), (u1 ++ u2). repeat split.
      * apply (delta_trans _ _ _ _ _ _ _ D1 D2).
      * apply (delta_trans _ _ _ _ _ _ _ D1 D2).
      * rewrite rounds_started_app. lia.
      * rewrite progress_reports_app.
        destruct P1 as [-> | ->]; cbn [app]; [exact S2|].
        constructor; [exact S2|].
        eapply Forall_impl; [|exact F2]. cbn. intros k Hk. lia.
      * rewrite progress_reports_app. apply Forall_app. split.
        -- destruct P1 as [-> | ->]; repeat constructor; lia.
        -- eapply Forall_impl; [|exact F2]. cbn. intros k Hk. lia.
      * rewrite quits_app, restarts_app. lia.
      * rewrite navigations_app, restarts_app.
        destruct (snd (for_each (seq (S a) len) (scroll_round link n) s1)); lia.
      * now rewrite hrefs_read_app, H1, H2.
      * congruence.
    + exists e1, u1. repeat split; try tauto; try lia.
      * apply D1.
      * apply D1.
      * destruct P1 as [-> | ->]; repeat constructor.
      * destruct P1 as [-> | ->]; repeat constructor; lia.
Qed.

Lemma scroll_rounds_session (link : string) (n len a : nat) (s : St B) (d : WebDriver) :
  cached s = Some (Some d) -> driver s = Some d ->
  let s' := fst (for_each (seq a len) (scroll_round link n) s) in
  cached s' = Some (Some d) /\ driver s' = Some d
  /\ exists evs us, delta s s' evs us /\ launches evs = 0.
Proof.
  cbn zeta. revert a s. induction len as [|len IH]; intros a s Hc Hd.
  - cbn. repeat split; auto. exists [], []. split; [apply delta_refl|reflexivity].
  - cbn [seq]. rewrite for_each_cons.
    destruct (scroll_round_session link n a s d Hc Hd)
      as (Hc1 & Hd1 & e1 & u1 & D1 & L1).
    destruct (scroll_round link n a s) as [s1 [[]|e]] eqn:E; cbn [fst snd] in *.
    + destruct (IH (S a) s1 Hc1 Hd1) as (Hc2 & Hd2 & e2 & u2 & D2 & L2).
      repeat split; auto. exists (e1 ++ e2), (u1 ++ u2). split.
      * apply (delta_trans _ _ _ _ _ _ _ D1 D2).
      * rewrite launches_app. lia.
    + repeat split; auto. now exists e1, u1.
Qed.

End Rounds.

(** ** One query *)

Section Scrape.
Context {B : Type} {browser : Browser B}.

Lemma bind_run {A C} (m : M B A) (k : A -> M B C) (s : St B) :
  bind m k s
  = match m s with
    | (s', inl a) => k a s'
    | (s', inr e) => (s', inr e)
    end.
Proof. reflexivity. Qed.

Lemma scrape_block_run (link : string) (n : nat) (s s' : St B) (r : unit + exn) :
  scrape_block link n s = (s', r) ->
  exists evs us,
    delta s s' evs us
    /\ rounds_started evs <= n
    /\ StronglySorted lt (progress_reports us)
    /\ Forall (fun k => 1 <= k <= n) (progress_reports us)
    /\ quits evs = restarts us
    /\ match r with
       | inl _ => navigations link evs = 1 + restarts us
       | inr _ => navigations link evs <= 1 + restarts us
       end
    /\ job_urls s' = job_urls s ++ hrefs_read evs.
Proof.
  unfold scrape_block, scroll_loop, range.
  rewrite bind_run. unfold on_driver at 1.
  destruct (driver s) as [d|] eqn:Hd.
  2:{ intros [= <- <-]. exists [], []. cbn. rewrite !app_nil_r.
      repeat split; first [lia | constructor | now rewrite app_nil_r]. }
  unfold call at 1.
  destruct (get d link (world s)) as [b [[]|e]] eqn:Eg.
  2:{ intros [= <- <-].
      exists [(CallGet d link, Raised e)], []. cbn. rewrite String.eqb_refl.
      repeat split; cbn; rewrite ?app_nil_r; first [reflexivity | lia | constructor]. }
  rewrite bind_run. unfold show at 1.
  set (s1 := set_ui _ _).
  assert (D1 : delta s s1 [(CallGet d link, RetUnit tt)] [UiProgressNew])
    by (split; reflexivity).
  assert (U1 : job_urls s1 = job_urls s) by reflexivity.
  clearbody s1.
  rewrite bind_run.
  destruct (scroll_rounds_effects link n n 0 s1)
    as (e2 & u2 & D2 & R2 & S2 & F2 & Q2 & N2 & H2 & C2).
  cbn zeta in *.
  destruct (for_each (seq 0 n) (scroll_round link n) s1) as [s2 [[]|e]] eqn:El;
    cbn [fst snd] in *.
  2:{ intros [= <- <-].
      exists ([(CallGet d link, RetUnit tt)] ++ e2), ([UiProgressNew] ++ u2).
      repeat split.
      - apply (delta_trans _ _ _ _ _ _ _ D1 D2).
      - apply (delta_trans _ _ _ _ _ _ _ D1 D2).
      - rewrite rounds_started_app. cbn. lia.
      - exact S2.
      - exact F2.
      - rewrite quits_app, restarts_app. cbn. lia.
      - rewrite navigations_app, restarts_app. cbn. rewrite String.eqb_refl.
        cbn. lia.
      - rewrite hrefs_read_app, H2. cbn. rewrite app_nil_r.
        unfold columns in C2. inversion C2. congruence. }
  rewrite bind_run. unfold on_driver at 1.
  assert (U2 : job_urls s2 = job_urls s)
    by (unfold columns in C2; inversion C2; congruence).
  destruct (driver s2) as [d2|] eqn:Hd2.
  2:{ intros [= <- <-].
      exists ([(CallGet d link, RetUnit tt)] ++ e2), ([UiProgressNew] ++ u2).
      repeat split.
      - apply (delta_trans _ _ _ _ _ _ _ D1 D2).
      - apply (delta_trans _ _ _ _ _ _ _ D1 D2).
      - rewrite rounds_started_app. cbn. lia.
      - exact S2.
      - exact F2.
      - rewrite quits_app, restarts_app. cbn. lia.
      - rewrite navigations_app, restarts_app. cbn. rewrite String.eqb_refl.
        cbn. lia.
      - rewrite hrefs_read_app, H2. cbn. now rewrite app_nil_r. }
  unfold call at 1.
  destruct (find_elements d2 job_search_card (world s2)) as [b3 [cards|e]] eqn:Ef.
  2:{ intros [= <- <-].
      exists (([(CallGet d link, RetUnit tt)] ++ e2)
               ++ [(CallFindElements d2 job_search_card, Raised e)]),
             (([UiProgressNew] ++ u2) ++ []).
      repeat split.
      - cbn [calls set_calls set_world]. destruct D2 as [-> _].
        destruct D1 as [-> _]. now rewrite <- !app_assoc.
      - cbn [ui set_calls set_world]. destruct D2 as [_ ->].
        destruct D1 as [_ ->]. now rewrite !app_nil_r, <- !app_assoc.
      - rewrite !rounds_started_app. cbn. lia.
      - now rewrite app_nil_r.
      - now rewrite app_nil_r.
      - rewrite !quits_app, !restarts_app. cbn. lia.
      - rewrite !navigations_app, !restarts_app. cbn. rewrite String.eqb_refl.
        cbn. lia.
      - rewrite !hrefs_read_app, H2. cbn. now rewrite app_nil_r. }
  set (s3 := set_calls _ _).
  assert (D3 : delta s2 s3 [(CallFindElements d2 job_search_card, RetElements cards)] []).
  { split; cbn; [reflexivity|now rewrite app_nil_r]. }
  assert (U3 : job_urls s3 = job_urls s) by (subst s3; cbn; exact U2).
  clearbody s3.
  destruct (scrape_cards_effects cards s3)
    as (e4 & D4 & U4 & R4 & L4 & Q4 & N4 & Dr4 & C4).
  pose proof (scrape_cards_returns cards s3) as Hr.
  destruct (scrape_cards cards s3) as [s4 r4]. cbn [fst snd] in *. subst r4.
  intros [= <- <-].
  exists ((([(CallGet d link, RetUnit tt)] ++ e2)
            ++ [(CallFindElements d2 job_search_card, RetElements cards)]) ++ e4),
         ((([UiProgressNew] ++ u2) ++ []) ++ []).
  repeat split.
  - apply (delta_trans _ _ _ _ _ _ _ (delta_trans _ _ _ _ _ _ _
             (delta_trans _ _ _ _ _ _ _ D1 D2) D3) D4).
  - apply (delta_trans _ _ _ _ _ _ _ (delta_trans _ _ _ _ _ _ _
             (delta_trans _ _ _ _ _ _ _ D1 D2) D3) D4).
  - rewrite !rounds_started_app. cbn. lia.
  - now rewrite !app_nil_r.
  - now rewrite !app_nil_r.
  - rewrite !quits_app, !restarts_app. cbn. lia.
  - rewrite !navigations_app, !restarts_app, N4. cbn. rewrite String.eqb_refl.
    cbn. lia.
  - rewrite U4, U3. rewrite !hrefs_read_app, H2. cbn. reflexivity.
Qed.

(** [scrape_linkedin_jobs], control flow laid out. *)
Lemma scrape_unfold (job_title location time_param : string) (n : nat) (s : St B) :
  scrape_linkedin_jobs job_title location time_param n s
  = match get_driver s with
    | (s0, inl None) => (set_driver None s0, inl EmptyList)
    | (s0, inl (Some d)) =>
        match scrape_block (link job_title location time_param) n (at_try d s0) with
        | (s2, inl _) => (s2, inl (results_of s2))
        | (s2, inr e) =>
            (set_ui (ui s2 ++ [UiErrorScraping e]) s2, inl (results_of s2))
        end
    | (s0, inr e) => (s0, inr e)
    end.
Proof.
  unfold scrape_linkedin_jobs. rewrite bind_run.
  destruct (get_driver s) as [s0 [[d|]|e]]; try reflexivity.
  unfold bind, assign, try_except, results, show, at_try. cbn.
  destruct (scrape_block _ n _) as [s2 [[]|e]]; [reflexivity|].
  now rewrite isinstance_Exception_all.
Qed.

(** What one query adds to the records, and what it returns. *)
Lemma scrape_run (job_title location time_param : string) (n : nat)
    (s s' : St B) (r : JobData + exn) :
  scrape_linkedin_jobs job_title location time_param n s = (s', r) ->
  exists evs us,
    delta s s' evs us
    /\ rounds_started evs <= n
    /\ StronglySorted lt (progress_reports us)
    /\ Forall (fun k => 1 <= k <= n) (progress_reports us)
    /\ ((r = inl EmptyList /\ snd (get_driver s) = inl None
         /\ cached s' = Some None
         /\ (forall ev, In ev evs -> is_launch ev = true))
        \/ (exists t c l,
              r = inl (Results t c l (hrefs_read evs))
              /\ r = inl (results_of s'))).
Proof.
  rewrite scrape_unfold.
  destruct (get_driver_returns s) as (v & Hv & Hc).
  pose proof (get_driver_delta s) as Hd. cbn zeta in Hd.
  assert (D0 : exists e0 u0, delta s (fst (get_driver s)) e0 u0
                 /\ hrefs_read e0 = [] /\ rounds_started e0 = 0
                 /\ progress_reports u0 = []
                 /\ (forall ev, In ev e0 -> is_launch ev = true)).
  { destruct Hd as [[_ ->] | [_ (r0 & _ & Hr)]].
    - exists [], (map UiErrorInit (cached_errors s)). repeat split.
      + cbn. now rewrite app_nil_r.
      + apply progress_reports_init.
      + intros ev [].
    - destruct r0 as [d|e]; destruct Hr as [Hr _].
      + exists [(CallChrome, RetDriver d)], []. repeat split; try apply Hr.
        intros ev [<-|[]]. reflexivity.
      + exists [(CallChrome, Raised e)], [UiErrorInit e]. repeat split; try apply Hr.
        intros ev [<-|[]]. reflexivity. }
  destruct D0 as (e0 & u0 & D0 & H0 & R0 & P0 & L0).
  destruct (get_driver s) as [s0 r0]. cbn [fst snd] in *. subst r0.
  destruct v as [d|].
  - destruct (scrape_block _ n (at_try d s0)) as [s2 r2] eqn:Eb.
    destruct (scrape_block_run _ _ _ _ _ Eb)
      as (e1 & u1 & D1 & R1 & S1 & F1 & Q1 & N1 & U1).
    assert (Da : delta s0 (at_try d s0) [] []) by (split; cbn; now rewrite app_nil_r).
    pose proof (delta_trans _ _ _ _ _ _ _ (delta_trans _ _ _ _ _ _ _ D0 Da) D1) as D.
    rewrite !app_nil_r in D.
    assert (Hu : job_urls s2 = hrefs_read (e0 ++ e1)).
    { rewrite U1, hrefs_read_app, H0. reflexivity. }
    destruct r2 as [[]|e]; intros [= <- <-].
    + exists (e0 ++ e1), (u0 ++ u1). repeat split; try apply D.
      * rewrite rounds_started_app. lia.
      * now rewrite progress_reports_app, P0.
      * now rewrite progress_reports_app, P0.
      * right. exists (job_titles_list s2), (company_names s2), (locations_list s2).
        unfold results_of. rewrite Hu. split; reflexivity.
    + exists (e0 ++ e1), ((u0 ++ u1) ++ [UiErrorScraping e]). repeat split.
      * cbn. apply D.
      * cbn. destruct D as [_ ->]. now rewrite <- app_assoc.
      * rewrite rounds_started_app. lia.
      * rewrite !progress_reports_app, P0. cbn. now rewrite app_nil_r.
      * rewrite !progress_reports_app, P0. cbn. now rewrite app_nil_r.
      * right. exists (job_titles_list s2), (company_names s2), (locations_list s2).
        unfold results_of. cbn. rewrite Hu. split; reflexivity.
  - intros [= <- <-]. exists e0, u0. repeat split; try apply D0.
    + rewrite R0. lia.
    + rewrite P0. constructor.
    + rewrite P0. constructor.
    + left. repeat split; auto.
Qed.

End Scrape.

(** ** The pagination controller *)

Section Pagination.

Context {B : Type} {browser : Browser B}.

(** C5.  The scroll loop is a function of its start state: for every
    number of rounds, every back end and every start state it ends, with a
    value or a raise.  It begins at most [num_scrolls] rounds (one scroll
    command each), whatever the page does and whether or not rounds go
    through "Restart session"; the round numbers it reports to the
    progress bar are strictly increasing and lie between 1 and
    [num_scrolls].  The same bounds hold for a whole call of
    [scrape_linkedin_jobs]. *)
Theorem pagination_bounded (num_scrolls : nat) :
  (forall (link : string) (s : St B),
      exists s' r evs us,
        scroll_loop link num_scrolls s = (s', r)
        /\ delta s s' evs us
        /\ rounds_started evs <= num_scrolls
        /\ StronglySorted lt (progress_reports us)
        /\ Forall (fun k => 1 <= k <= num_scrolls) (progress_reports us))
  /\ (forall (job_title location time_param : string) (s : St B),
        exists s' r evs us,
          scrape_linkedin_jobs job_title location time_param num_scrolls s = (s', r)
          /\ delta s s' evs us
          /\ rounds_started evs <= num_scrolls
          /\ StronglySorted lt (progress_reports us)
          /\ Forall (fun k => 1 <= k <= num_scrolls) (progress_reports us)).
Proof.
  split.
  - intros link s.
    destruct (scroll_rounds_effects link num_scrolls num_scrolls 0 s)
      as (evs & us & D & R & S & F & _).
    cbn zeta in *. fold (range num_scrolls) in *.
    fold (scroll_loop link num_scrolls) in *.
    destruct (scroll_loop link num_scrolls s) as [s' r]. cbn [fst] in *.
    now exists s', r, evs, us.
  - intros job_title location time_param s.
    destruct (scrape_linkedin_jobs job_title location time_param num_scrolls s)
      as [s' r] eqn:E.
    destruct (scrape_run _ _ _ _ _ _ _ E) as (evs & us & D & R & S & F & _).
    now exists s', r, evs, us.
Qed.

(** Inside a query the store of [get_driver] already holds the session the
    query started with, so "Restart session" gets that same session back:
    no browser is started during the scroll loop, and the local [driver]
    still holds the session that was quit. *)
Lemma restart_reuses_session (link : string) (n : nat) (s : St B) (d : WebDriver) :
  cached s = Some (Some d) -> driver s = Some d ->
  let s' := fst (scroll_loop link n s) in
  cached s' = Some (Some d) /\ driver s' = Some d
  /\ exists evs us, delta s s' evs us /\ launches evs = 0.
Proof. apply scroll_rounds_session. Qed.

End Pagination.

(** ** One query never raises *)

Section NoRaise.

Context {B : Type} {browser : Browser B}.

(** C10.  [scrape_linkedin_jobs] returns a value for every input, back
    end and start state; it never raises.  Without a session it returns
    the empty list.  With a session it returns the four lists as they
    stand when the [try] block is left, whether the block ran to its end
    or was cut short by a raise at any command.  In the card loop a raise
    at one container never ends the loop and never removes an entry: after
    any further containers each list is the list before them, extended. *)
Theorem scrape_never_raises
    (job_title location time_param : string) (num_scrolls : nat) (s : St B) :
  (exists job_data,
      snd (scrape_linkedin_jobs job_title location time_param num_scrolls s)
      = inl job_data)
  /\ match get_driver s with
     | (s0, inl (Some d)) =>
         snd (scrape_linkedin_jobs job_title location time_param num_scrolls s)
         = inl (results_of
                  (fst (scrape_block (link job_title location time_param)
                          num_scrolls (at_try d s0))))
     | _ =>
         snd (scrape_linkedin_jobs job_title location time_param num_scrolls s)
         = inl EmptyList
     end
  /\ (forall (done more : list WebElement) (s1 : St B),
        snd (scrape_cards (done ++ more) s1) = inl tt
        /\ exists t c l u,
             columns (fst (scrape_cards (done ++ more) s1))
             = (job_titles_list (fst (scrape_cards done s1)) ++ t,
                company_names (fst (scrape_cards done s1)) ++ c,
                locations_list (fst (scrape_cards done s1)) ++ l,
                job_urls (fst (scrape_cards done s1)) ++ u)).
Proof.
  assert (H : match get_driver s with
     | (s0, inl (Some d)) =>
         snd (scrape_linkedin_jobs job_title location time_param num_scrolls s)
         = inl (results_of
                  (fst (scrape_block (link job_title location time_param)
                          num_scrolls (at_try d s0))))
     | _ =>
         snd (scrape_linkedin_jobs job_title location time_param num_scrolls s)
         = inl EmptyList
     end).
  { rewrite scrape_unfold.
    destruct (get_driver_returns s) as (v & Hv & _).
    destruct (get_driver s) as [s0 r0]. cbn [snd] in Hv. subst r0.
    destruct v as [d|]; [|reflexivity].
    destruct (scrape_block _ num_scrolls (at_try d s0)) as [s2 [[]|e]]; reflexivity. }
  split; [|split; [exact H|]].
  - destruct (get_driver s) as [s0 [[d|]|e]]; eauto.
  - intros done more s1. split; [apply scrape_cards_returns|].
    rewrite scrape_cards_app. apply scrape_cards_extends.
Qed.

End NoRaise.

(** ** The main loop *)

Lemma without_init_errors_app (a b : list Ui) :
  without_init_errors (a ++ b) = without_init_errors a ++ without_init_errors b.
Proof. apply filter_app. Qed.

Lemma without_init_errors_reports (job_titles : list string) :
  without_init_errors
    (flat_map (fun q => [UiSubheader q; UiWarningNoJobs q]) job_titles)
  = flat_map (fun q => [UiSubheader q; UiWarningNoJobs q]) job_titles.
Proof.
  induction job_titles as [|q rest IH]; [reflexivity|].
  cbn [flat_map]. rewrite without_init_errors_app, IH. reflexivity.
Qed.

Section MainLoop.

Context {B : Type} {browser : Browser B}.

Variables (location : string) (time_range : TimeRange) (num_scrolls : nat).

Lemma search_loop_cons (job_title : string) (rest : list string)
    (all_results : DataFrame) (s : St B) :
  search_loop (job_title :: rest) location time_range num_scrolls all_results s
  = match scrape_linkedin_jobs job_title location (time_range_param time_range)
            num_scrolls (set_ui (ui s ++ [UiSubheader job_title]) s) with
    | (s2, inl job_data) =>
        if has_jobs job_data then
          match pd_DataFrame job_data s2 with
          | (s3, inl df) =>
              search_loop rest location time_range num_scrolls
                (pd_concat all_results (set_search_term df job_title))
                (set_ui (ui s3 ++ [UiFound (List.length (set_search_term df job_title))
                                     job_title]) s3)
          | (s3, inr e) => (s3, inr e)
          end
        else
          search_loop rest location time_range num_scrolls all_results
            (set_ui (ui s2 ++ [UiWarningNoJobs job_title]) s2)
    | (s2, inr e) => (s2, inr e)
    end.
Proof.
  cbn [search_loop]. unfold bind at 1. unfold show at 1. rewrite bind_run.
  destruct (scrape_linkedin_jobs _ _ _ _ _) as [s2 [job_data|e]]; [|reflexivity].
  destruct (has_jobs job_data); [|reflexivity].
  rewrite bind_run. destruct (pd_DataFrame job_data s2) as [s3 [df|e]]; reflexivity.
Qed.





Lemma rows_of_urls (t c l : list string) (u : list (option string))
    (rows : list Listing) :
  rows_of t c l u = Some rows -> map Job_URL rows = u.
Proof.
  revert c l u rows.
  induction t as [|t0 t IH]; intros [|c0 c] [|l0 l] [|u0 u] rows; cbn;
    try discriminate.
  - now intros [= <-].
  - destruct (rows_of t c l u) as [rs|] eqn:E; [|discriminate].
    intros [= <-]. cbn. now rewrite (IH _ _ _ _ E).
Qed.

(** The urls of the rows the loop adds are values that [href] reads
    returned while it ran. *)
Lemma search_loop_urls (job_titles : list string) (all_results : DataFrame)
    (s s' : St B) (r : DataFrame + exn) :
  search_loop job_titles location time_range num_scrolls all_results s = (s', r) ->
  exists evs us,
    delta s s' evs us
    /\ match r with
       | inl df =>
           exists added,
             df = all_results ++ added
             /\ Forall (fun row => In (Job_URL (listing row)) (hrefs_read evs)) added
       | inr _ => True
       end.
Proof.
  revert all_results s.
  induction job_titles as [|q rest IH]; intros all_results s.
  - intros [= <- <-]. exists [], []. split; [apply delta_refl|].
    exists []. split; [now rewrite app_nil_r|constructor].
  - rewrite search_loop_cons.
    set (s1 := set_ui (ui s ++ [UiSubheader q]) s).
    assert (D1 : delta s s1 [] [UiSubheader q])
      by (split; cbn; [now rewrite app_nil_r|reflexivity]).
    destruct (scrape_linkedin_jobs q location (time_range_param time_range)
                num_scrolls s1) as [s2 r2] eqn:Es.
    destruct (scrape_run _ _ _ _ _ _ _ Es) as (e2 & u2 & D2 & _ & _ & _ & Hr).
    pose proof (delta_trans _ _ _ _ _ _ _ D1 D2) as D12. cbn [app] in D12.
    destruct Hr as [(-> & _) | (t & c & l & -> & _)].
    + cbn [has_jobs]. intros H.
      match type of H with
      | search_loop _ _ _ _ _ ?s3 = _ =>
          assert (D3 : delta s2 s3 [] [UiWarningNoJobs q])
            by (split; cbn; [now rewrite app_nil_r|reflexivity])
      end.
      destruct (IH _ _ H) as (e4 & u4 & D4 & Hres).
      pose proof (delta_trans _ _ _ _ _ _ _ (delta_trans _ _ _ _ _ _ _ D12 D3) D4) as D.
      rewrite app_nil_r in D.
      eexists _, _. split; [exact D|].
      destruct r as [df|e]; [|exact I].
      destruct Hres as (added & -> & Hall). exists added. split; [reflexivity|].
      eapply Forall_impl; [|exact Hall]. cbn. intros row Hin.
      rewrite hrefs_read_app. apply in_or_app. now right.
    + destruct (has_jobs (Results t c l (hrefs_read e2))).
      * unfold pd_DataFrame, ret, raise.
        destruct (rows_of t c l (hrefs_read e2)) as [rows|] eqn:Er.
        -- intros H.
           match type of H with
           | search_loop _ _ _ _ _ ?s3 = _ =>
               assert (D3 : delta s2 s3 []
                              [UiFound (List.length (set_search_term rows q)) q])
                 by (split; cbn; [now rewrite app_nil_r|reflexivity])
           end.
           destruct (IH _ _ H) as (e4 & u4 & D4 & Hres).
           pose proof (delta_trans _ _ _ _ _ _ _
                         (delta_trans _ _ _ _ _ _ _ D12 D3) D4) as D.
           rewrite app_nil_r in D.
           eexists _, _. split; [exact D|].
           destruct r as [df|e]; [|exact I].
           destruct Hres as (added & -> & Hall).
           exists (set_search_term rows q ++ added).
           split; [unfold pd_concat; now rewrite app_assoc|].
           apply Forall_app. split.
           ++ apply Forall_forall. intros row Hin.
              unfold set_search_term in Hin. apply in_map_iff in Hin.
              destruct Hin as (x & <- & Hx). cbn.
              rewrite hrefs_read_app. apply in_or_app. left.
              rewrite <- (rows_of_urls _ _ _ _ _ Er). now apply in_map.
           ++ eapply Forall_impl; [|exact Hall]. cbn. intros row Hin.
              rewrite hrefs_read_app. apply in_or_app. now right.
        -- intros [= <- <-]. eexists _, _. split; [exact D12|exact I].
      * intros H.
        match type of H with
        | search_loop _ _ _ _ _ ?s3 = _ =>
            assert (D3 : delta s2 s3 [] [UiWarningNoJobs q])
              by (split; cbn; [now rewrite app_nil_r|reflexivity])
        end.
        destruct (IH _ _ H) as (e4 & u4 & D4 & Hres).
        pose proof (delta_trans _ _ _ _ _ _ _ (delta_trans _ _ _ _ _ _ _ D12 D3) D4) as D.
        rewrite app_nil_r in D.
        eexists _, _. split; [exact D|].
        destruct r as [df|e]; [|exact I].
        destruct Hres as (added & -> & Hall). exists added. split; [reflexivity|].
        eapply Forall_impl; [|exact Hall]. cbn. intros row Hin.
        rewrite hrefs_read_app. apply in_or_app. now right.
Qed.

(** C3, as the script has it.  A container whose anchor lookup or whose
    [href] read raises adds nothing to any column.  A container whose
    [href] and title are read adds the value the [href] read returned to
    the url column as it is, absent and empty values included: nothing
    checks it.  The url of every row of the final table is a value that an
    [href] read returned during the run. *)
Theorem urls_are_hrefs_read :
  (forall (card : WebElement) (s : St B),
      match anchor_outcome card (world s) with
      | NoAnchor | NoHref => columns (fst (scrape_card card s)) = columns s
      | NoTitle _ => True
      | Anchor u _ _ => job_urls (fst (scrape_card card s)) = job_urls s ++ [u]
      end)
  /\ (forall (job_titles : list string) (s s' : St B) (df : DataFrame),
        main job_titles location time_range num_scrolls s = (s', inl df) ->
        exists evs us,
          delta s s' evs us
          /\ Forall (fun row => In (Job_URL (listing row)) (hrefs_read evs)) df).
Proof.
  split.
  - intros card s. pose proof (scrape_card_columns card s) as H.
    destruct (anchor_outcome card (world s)); auto.
    unfold columns in H. now inversion H.
  - intros job_titles s s' df. unfold main. rewrite bind_run.
    destruct (search_loop job_titles location time_range num_scrolls [] s)
      as [s1 [all_results|e]] eqn:E; [|discriminate].
    destruct (search_loop_urls _ _ _ _ _ E) as (evs & us & D & added & -> & Hall).
    cbn [app]. rewrite bind_run.
    destruct added as [|row added]; cbn; intros [= <- <-].
    + exists evs, (us ++ [UiErrorNoJobs]). split; [|constructor].
      split; cbn; [apply D|]. destruct D as [_ ->]. now rewrite app_assoc.
    + exists evs, (us ++ [UiResults (row :: added)]). split; [|exact Hall].
      split; cbn; [apply D|]. destruct D as [_ ->]. now rewrite app_assoc.
Qed.

End MainLoop.

(** ** The result aggregator *)

Section Aggregation.

Context {B : Type} {browser : Browser B}.

Variables (location : string) (time_range : TimeRange) (num_scrolls : nat).

Lemma search_loop_batches (job_titles : list string) (all_results : DataFrame)
    (s : St B) :
  Forall (fun qb => table_of (fst qb) (snd qb) <> None)
         (batches job_titles location time_range num_scrolls s) ->
  exists s' evs us,
    search_loop job_titles location time_range num_scrolls all_results s
    = (s', inl (all_results
                  ++ flat_map (fun qb => tagged (fst qb) (snd qb))
                       (batches job_titles location time_range num_scrolls s)))
    /\ map fst (batches job_titles location time_range num_scrolls s) = job_titles
    /\ delta s s' evs us
    /\ Forall (fun qb => In (report (fst qb) (snd qb)) us)
              (batches job_titles location time_range num_scrolls s).
Proof.
  revert all_results s.
  induction job_titles as [|q rest IH]; intros all_results s Hok.
  - exists s, [], []. cbn. rewrite app_nil_r.
    repeat split; try apply delta_refl. constructor.
  - rewrite search_loop_cons. cbn [batches] in *.
    set (s1 := set_ui (ui s ++ [UiSubheader q]) s) in *.
    assert (D1 : delta s s1 [] [UiSubheader q])
      by (split; cbn; [now rewrite app_nil_r|reflexivity]).
    destruct (scrape_linkedin_jobs q location (time_range_param time_range)
                num_scrolls s1) as [s2 r2] eqn:Es.
    destruct (scrape_run _ _ _ _ _ _ _ Es) as (e2 & u2 & D2 & _ & _ & _ & Hr).
    assert (Hjd : exists jd, r2 = inl jd)
      by (destruct Hr as [(-> & _)|(t & c & l & -> & _)]; eauto).
    destruct Hjd as (jd & ->). clear Hr.
    inversion Hok as [|qb qbs Hq Hrest]; subst. cbn [fst snd] in Hq.
    set (s3 := set_ui (ui s2 ++ [report q jd]) s2) in *.
    assert (D3 : delta s2 s3 [] [report q jd])
      by (split; cbn; [now rewrite app_nil_r|reflexivity]).
    pose proof (delta_trans _ _ _ _ _ _ _ (delta_trans _ _ _ _ _ _ _ D1 D2) D3) as D.
    rewrite app_nil_r in D. cbn [app] in D.
    assert (Hstep : forall acc,
               exists s' evs us,
                 search_loop rest location time_range num_scrolls acc s3
                 = (s', inl (acc ++ flat_map (fun qb => tagged (fst qb) (snd qb))
                                     (batches rest location time_range num_scrolls s3)))
                 /\ map fst ((q, jd) :: batches rest location time_range num_scrolls s3)
                    = q :: rest
                 /\ delta s s' evs us
                 /\ Forall (fun qb => In (report (fst qb) (snd qb)) us)
                      ((q, jd) :: batches rest location time_range num_scrolls s3)).
    { intros acc. destruct (IH acc s3 Hrest) as (s' & e4 & u4 & E & Hm & D4 & Hin).
      exists s', (e2 ++ e4), ((UiSubheader q :: u2 ++ [report q jd]) ++ u4).
      split; [exact E|]. split; [cbn; now rewrite Hm|].
      split; [exact (delta_trans _ _ _ _ _ _ _ D D4)|].
      constructor.
      - cbn [fst snd]. apply in_or_app. left. apply in_cons. apply in_or_app.
        right. now left.
      - eapply Forall_impl; [|exact Hin]. cbn beta. intros qb H.
        apply in_or_app. now right. }
    cbn [flat_map fst snd].
    assert (Hrep : report q jd
                   = if has_jobs jd then UiFound (List.length (tagged q jd)) q
                     else UiWarningNoJobs q) by reflexivity.
    subst s3. clear D3 D Hrest Hok.
    destruct (has_jobs jd) eqn:Hj.
    + assert (Ht : exists rows, pd_DataFrame jd s2 = (s2, inl rows)
                                /\ tagged q jd = set_search_term rows q).
      { unfold tagged. unfold table_of in *. rewrite Hj in *.
        destruct jd as [|t c l u]; [discriminate|].
        unfold pd_DataFrame, ret. destruct (rows_of t c l u) as [rows|];
          [|now contradiction Hq].
        exists rows. split; reflexivity. }
      destruct Ht as (rows & -> & Ht). rewrite Ht in *. rewrite <- Hrep.
      unfold pd_concat.
      destruct (Hstep (all_results ++ set_search_term rows q))
        as (s' & evs & us & E & Hm & D' & Hin).
      exists s', evs, us. rewrite <- app_assoc in E.
      exact (conj E (conj Hm (conj D' Hin))).
    + assert (Ht : tagged q jd = []).
      { unfold tagged, table_of. now rewrite Hj. }
      rewrite Ht, <- Hrep. cbn [app].
      destruct (Hstep all_results) as (s' & evs & us & E & Hm & D' & Hin).
      exists s', evs, us. exact (conj E (conj Hm (conj D' Hin))).
Qed.

(** The aggregation when every query returns columns of one length (or no
    jobs): every job title is processed, in the order given; the final table
    is the rows of the queries one after the other, each tagged with its job
    title, with no row removed; and each query's report was shown, the
    warning for a query without jobs included. *)
Lemma tables_concatenated (job_titles : list string) (s : St B) :
  Forall (fun qb => table_of (fst qb) (snd qb) <> None)
         (batches job_titles location time_range num_scrolls s) ->
  exists s' evs us,
    main job_titles location time_range num_scrolls s
    = (s', inl (flat_map (fun qb => tagged (fst qb) (snd qb))
                  (batches job_titles location time_range num_scrolls s)))
    /\ map fst (batches job_titles location time_range num_scrolls s) = job_titles
    /\ delta s s' evs us
    /\ Forall (fun qb => In (report (fst qb) (snd qb)) us)
              (batches job_titles location time_range num_scrolls s).
Proof.
  intros Hok.
  destruct (search_loop_batches job_titles [] s Hok)
    as (s1 & evs & us & E & Hm & D & Hin).
  unfold main. rewrite bind_run, E. cbn [app].
  set (df := flat_map _ _) in *.
  exists (set_ui (ui s1 ++ [match df with [] => UiErrorNoJobs | _ :: _ => UiResults df end]) s1),
    evs, (us ++ [match df with [] => UiErrorNoJobs | _ :: _ => UiResults df end]).
  split; [destruct df; reflexivity|].
  split; [exact Hm|]. split.
  - split; cbn; [apply D|]. destruct D as [_ ->]. now rewrite app_assoc.
  - eapply Forall_impl; [|exact Hin]. cbn. intros qb H. apply in_or_app. now left.
Qed.

End Aggregation.

(** ** The main loop on stub pages *)



(** In that run the browser is tried once, and the error of the failed
    start is shown under every job title: by the body of [get_driver] for
    the first, from the store for the second. *)
Example init_error_shown_again :
  let run := main ["a"; "b"] "India" PastWeek 2
               (Stub.fresh (Stub.page true true [] None [Stub.full "x"])) in
  ui (fst run)
  = [UiSubheader "a"; UiErrorInit WebDriverException; UiWarningNoJobs "a";
     UiSubheader "b"; UiErrorInit WebDriverException; UiWarningNoJobs "b";
     UiErrorNoJobs]
  /\ cached (fst run) = Some None
  /\ cached_errors (fst run) = [WebDriverException].
Proof. vm_compute. repeat split. Qed.

Lemma urls_are_hrefs_read_witness :
  let s := Stub.fresh (Stub.page false true [] None [Stub.no_href "x"]) in
  let run := main ["a"] "India" PastWeek 1 s in
  snd run = inl [mkRow (mkListing "x" "Acme" "Pune" None) "a"]
  /\ exists evs us,
       delta s (fst run) evs us
       /\ Forall (fun row => In (Job_URL (listing row)) (hrefs_read evs))
            [mkRow (mkListing "x" "Acme" "Pune" None) "a"].
Proof.
  cbn zeta. split; [vm_compute; reflexivity|].
  apply (proj2 (urls_are_hrefs_read "India" PastWeek 1) ["a"]).
  vm_compute. reflexivity.
Defined.

(** C3 as the specification states it does not hold: the link of the only
    container has no [href]; its row is in the final table, without a
    url. *)
Lemma empty_url_counterexample :
  let run := main ["a"] "India" PastWeek 1
               (Stub.fresh (Stub.page false true [] None [Stub.no_href "x"])) in
  exists df,
    snd run = inl df
    /\ df = [mkRow (mkListing "x" "Acme" "Pune" None) "a"]
    /\ forallb nonempty_url df = false.
Proof. eexists. vm_compute. repeat split. Qed.

(** C9 on a page whose only container has a title that cannot be read: the
    url column has one entry and the other three have none. *)
Lemma stale_title_breaks_atomicity :
  let run := scrape_linkedin_jobs "a" "India" "r604800" 1
               (Stub.fresh (Stub.page false true [] None [Stub.stale_title "x"])) in
  snd run = inl (Results [] [] [] [Some "https://example.org/x"])
  /\ columns (fst (scrape_card 10
                     (Stub.fresh (Stub.page false true [] None [Stub.stale_title "x"]))))
     = ([], [], [], [Some "https://example.org/x"]).
Proof. vm_compute. split; reflexivity. Qed.

(** C8 on the same page with two job titles: the table of the first query
    cannot be built, the run stops with [ValueError], and the second title is
    never turned to. *)
Lemma stale_title_halts_run :
  let run := main ["a"; "b"] "India" PastWeek 1
               (Stub.fresh (Stub.page false true [] None [Stub.stale_title "x"])) in
  snd run = inr ValueError
  /\ ui (fst run) = [UiSubheader "a"; UiProgressNew; UiProgress 1 1].
Proof. vm_compute. split; reflexivity. Qed.

(** Two job titles on a page with two complete containers: both queries are
    processed, and each listing is in the final table twice, once under each
    job title. *)
Example two_queries_same_listings :
  let s := Stub.fresh (Stub.page false true [] (Some TimeoutException)
                         [Stub.full "x"; Stub.no_company "y"]) in
  snd (main ["a"; "b"] "India" PastWeek 2 s)
  = inl [mkRow (mkListing "x" "Acme" "Pune" (Some "https://example.org/x")) "a";
         mkRow (mkListing "y" "N/A" "Pune" (Some "https://example.org/y")) "a";
         mkRow (mkListing "x" "Acme" "Pune" (Some "https://example.org/x")) "b";
         mkRow (mkListing "y" "N/A" "Pune" (Some "https://example.org/y")) "b"].
Proof.
  cbn zeta.
  destruct (tables_concatenated "India" PastWeek 2 ["a"; "b"]
              (Stub.fresh (Stub.page false true [] (Some TimeoutException)
                             [Stub.full "x"; Stub.no_company "y"])))
    as (s' & evs & us & E & _).
  - vm_compute. repeat constructor; discriminate.
  - rewrite E. vm_compute. reflexivity.
Qed.

(** A [WebDriverException] raised while waiting for the button is caught
    by the inner handler of the round like any other exception: nothing is
    quit, nothing is navigated again, no restart is reported. *)
Example wait_fault_is_swallowed :
  let l := link "a" "India" "r604800" in
  let run := scrape_linkedin_jobs "a" "India" "r604800" 2
               (Stub.fresh (Stub.page false true [] (Some WebDriverException)
                              [Stub.full "x"])) in
  firstn 6 (calls (fst run))
  = [(CallChrome, RetDriver 1);
     (CallGet 1 l, RetUnit tt);
     (CallExecuteScript 1 scroll_script, RetUnit tt);
     (CallUntilClickable 1 10 see_more_jobs, Raised WebDriverException);
     (CallExecuteScript 1 scroll_script, RetUnit tt);
     (CallUntilClickable 1 10 see_more_jobs, Raised WebDriverException)]
  /\ quits (calls (fst run)) = 0
  /\ navigations l (calls (fst run)) = 1
  /\ restarts (ui (fst run)) = 0.
Proof. vm_compute. repeat split. Qed.

(** C1.  The scroll command of round 0 raises a [WebDriverException], on a
    back end where a session that was quit refuses every further command.
    "Restart session" quits session 1 and asks [get_driver] for a session;
    the store of [get_driver] holds session 1, so no browser is started and
    session 1 comes back; the navigation on it raises, the outer handler
    reports the error, round 1 is never begun, no container is read, and
    the query returns four empty lists.  The session stays in the store:
    in a run over three job titles the later queries fail at their first
    navigation, one browser is started in all, and the run ends without a
    single listing, where the same page without the scroll fault gives one
    listing for each job title. *)
Theorem restart_on_closed_session :
  let l := link "a" "India" "r604800" in
  let page := Stub.page false true [0] None [Stub.full "x"] in
  let run := scrape_linkedin_jobs "a" "India" "r604800" 2 (Stub.fresh page) in
  let all := main ["a"; "b"; "c"] "India" PastWeek 2 (Stub.fresh page) in
  (snd run = inl (Results [] [] [] [])
   /\ calls (fst run)
      = [(CallChrome, RetDriver 1);
         (CallGet 1 l, RetUnit tt);
         (CallExecuteScript 1 scroll_script, Raised WebDriverException);
         (CallQuit 1, RetUnit tt);
         (CallGet 1 l, Raised OtherException)]
   /\ ui (fst run)
      = [UiProgressNew; UiWarningWebDriver WebDriverException;
         UiErrorScraping OtherException]
   /\ launches (calls (fst run)) = 1
   /\ rounds_started (calls (fst run)) = 1
   /\ cached (fst run) = Some (Some 1)
   /\ driver (fst run) = Some 1)
  /\ (snd all = inl []
      /\ launches (calls (fst all)) = 1
      /\ quits (calls (fst all)) = 1
      /\ ui (fst all)
         = [UiSubheader "a"; UiProgressNew;
            UiWarningWebDriver WebDriverException;
            UiErrorScraping OtherException; UiWarningNoJobs "a";
            UiSubheader "b"; UiErrorScraping OtherException; UiWarningNoJobs "b";
            UiSubheader "c"; UiErrorScraping OtherException; UiWarningNoJobs "c";
            UiErrorNoJobs])
  /\ snd (main ["a"; "b"; "c"] "India" PastWeek 2
             (Stub.fresh (Stub.page false true [] None [Stub.full "x"])))
     = inl [mkRow (mkListing "x" "Acme" "Pune" (Some "https://example.org/x")) "a";
            mkRow (mkListing "x" "Acme" "Pune" (Some "https://example.org/x")) "b";
            mkRow (mkListing "x" "Acme" "Pune" (Some "https://example.org/x")) "c"].
Proof. vm_compute. repeat split. Qed.

(** * Further properties *)

(** ** The session manager *)

Section SessionFacts.

Context {B : Type} {browser : Browser B}.

(** X11.  A second call of [get_driver] returns what the first returned
    and changes nothing but what is shown: it sends no command and leaves
    the world, the store and the local variables as they are; it shows
    again the messages stored with the value.  After a first call that
    started the browser these are none, after one that failed to start it
    the error of that failure, and after one that found the store filled
    what was stored before. *)
Theorem get_driver_idempotent (s : St B) :
  let s1 := fst (get_driver s) in
  get_driver s1
  = (set_ui (ui s1 ++ map UiErrorInit (cached_errors s1)) s1, snd (get_driver s))
  /\ cached_errors s1
     = match cached s with
       | Some _ => cached_errors s
       | None =>
           match snd (Chrome (world s)) with
           | inl _ => []
           | inr e => [e]
           end
       end.
Proof.
  cbn zeta. split.
  - destruct (get_driver_returns s) as (v & Hv & Hc).
    rewrite (get_driver_cached _ v Hc). now rewrite Hv.
  - unfold get_driver, cache_resource.
    destruct (cached s) as [v|] eqn:Hc; [reflexivity|].
    unfold_monad. case_call; unfold init_errors.
    + now rewrite skipn_all.
    + rewrite skipn_app, skipn_all, Nat.sub_diag. reflexivity.
Qed.

Lemma forallb_addressed_app (d : WebDriver) (a b : list Event) :
  forallb (addressed_to d) (a ++ b)
  = forallb (addressed_to d) a && forallb (addressed_to d) b.
Proof. apply forallb_app. Qed.

(** One round with the session [d] stored and in [driver]. *)
Lemma scroll_round_addressed (link : string) (n i : nat) (s : St B) (d : WebDriver) :
  cached s = Some (Some d) -> driver s = Some d ->
  exists evs us,
    delta s (fst (scroll_round link n i s)) evs us
    /\ forallb (addressed_to d) evs = true.
Proof.
  destruct s. cbn. intros -> ->.
  unfold scroll_round, restart_session, get_driver, cache_resource, delta.
  unfold_monad. cbn.
  repeat (first [case_call | case_var]; cbn).
  all: eexists; eexists; split;
    [split; rewrite <- ?app_assoc; try reflexivity; symmetry; apply app_nil_r|].
  all: cbn; unfold addressed_to; cbn; rewrite ?Nat.eqb_refl; reflexivity.
Qed.

Lemma scroll_rounds_addressed (link : string) (n len a : nat) (s : St B) (d : WebDriver) :
  cached s = Some (Some d) -> driver s = Some d ->
  exists evs us,
    delta s (fst (for_each (seq a len) (scroll_round link n) s)) evs us
    /\ forallb (addressed_to d) evs = true.
Proof.
  revert a s. induction len as [|len IH]; intros a s Hc Hd.
  - exists [], []. split; [apply delta_refl|reflexivity].
  - cbn [seq]. rewrite for_each_cons.
    destruct (scroll_round_session link n a s d Hc Hd) as (Hc1 & Hd1 & _).
    destruct (scroll_round_addressed link n a s d Hc Hd) as (e1 & u1 & D1 & A1).
    destruct (scroll_round link n a s) as [s1 [[]|e]]; cbn [fst snd] in *.
    + destruct (IH (S a) s1 Hc1 Hd1) as (e2 & u2 & D2 & A2).
      exists (e1 ++ e2), (u1 ++ u2). split.
      * apply (delta_trans _ _ _ _ _ _ _ D1 D2).
      * now rewrite forallb_addressed_app, A1, A2.
    + now exists e1, u1.
Qed.

Lemma scrape_card_addressed (card : WebElement) (s : St B) (d : WebDriver) :
  exists evs,
    delta s (fst (scrape_card card s)) evs []
    /\ forallb (addressed_to d) evs = true.
Proof.
  destruct s. unfold scrape_card, delta. unfold_monad. cbn.
  repeat case_call.
  all: eexists; split;
    [split; [rewrite <- ?app_assoc; reflexivity | symmetry; apply app_nil_r]|];
    reflexivity.
Qed.

Lemma scrape_cards_addressed (cards : list WebElement) (s : St B) (d : WebDriver) :
  exists evs,
    delta s (fst (scrape_cards cards s)) evs []
    /\ forallb (addressed_to d) evs = true.
Proof.
  revert s. induction cards as [|c cards IH]; intros s.
  - exists []. split; [apply delta_refl|reflexivity].
  - rewrite scrape_cards_cons.
    destruct (scrape_card_addressed c s d) as (e1 & D1 & A1).
    destruct (IH (fst (scrape_card c s))) as (e2 & D2 & A2).
    exists (e1 ++ e2). split.
    + apply (delta_trans _ _ _ _ _ _ _ D1 D2).
    + now rewrite forallb_addressed_app, A1, A2.
Qed.

(** The block under [try] with the session [d] stored and in [driver]:
    no browser is started, every driver command goes to [d], and [d] is
    still the stored session afterwards. *)
Lemma scrape_block_session (link : string) (n : nat) (s s' : St B)
    (r : unit + exn) (d : WebDriver) :
  cached s = Some (Some d) -> driver s = Some d ->
  scrape_block link n s = (s', r) ->
  cached s' = Some (Some d)
  /\ exists evs us,
       delta s s' evs us
       /\ launches evs = 0
       /\ forallb (addressed_to d) evs = true.
Proof.
  intros Hc Hd. unfold scrape_block, scroll_loop, range.
  rewrite bind_run. unfold on_driver at 1. rewrite Hd.
  unfold call at 1.
  destruct (get d link (world s)) as [b [[]|e]] eqn:Eg.
  2:{ intros [= <- <-]. split; [exact Hc|].
      exists [(CallGet d link, Raised e)], []. cbn.
      unfold delta, addressed_to. cbn. rewrite Nat.eqb_refl, app_nil_r.
      repeat split. }
  rewrite bind_run. unfold show at 1.
  set (s1 := set_ui _ _).
  assert (D1 : delta s s1 [(CallGet d link, RetUnit tt)] [UiProgressNew])
    by (split; reflexivity).
  assert (Hc1 : cached s1 = Some (Some d)) by exact Hc.
  assert (Hd1 : driver s1 = Some d) by exact Hd.
  clearbody s1.
  rewrite bind_run.
  destruct (scroll_rounds_session link n n 0 s1 d Hc1 Hd1)
    as (Hc2 & Hd2 & e2 & u2 & D2 & L2).
  destruct (scroll_rounds_addressed link n n 0 s1 d Hc1 Hd1)
    as (e2' & u2' & D2' & A2).
  destruct (delta_inj _ _ _ _ _ _ D2 D2') as [<- <-]. clear D2'.
  cbn zeta in *.
  destruct (for_each (seq 0 n) (scroll_round link n) s1) as [s2 [[]|e]];
    cbn [fst snd] in *.
  2:{ intros [= <- <-]. split; [exact Hc2|].
      exists ([(CallGet d link, RetUnit tt)] ++ e2), ([UiProgressNew] ++ u2).
      split; [apply (delta_trans _ _ _ _ _ _ _ D1 D2)|].
      rewrite launches_app, forallb_addressed_app, L2, A2.
      unfold addressed_to. cbn. now rewrite Nat.eqb_refl. }
  rewrite bind_run. unfold on_driver at 1. rewrite Hd2.
  unfold call at 1.
  destruct (find_elements d job_search_card (world s2)) as [b3 [cards|e]] eqn:Ef.
  2:{ intros [= <- <-]. split; [exact Hc2|].
      exists (([(CallGet d link, RetUnit tt)] ++ e2)
               ++ [(CallFindElements d job_search_card, Raised e)]),
             (([UiProgressNew] ++ u2) ++ []).
      split.
      - eapply delta_trans; [apply (delta_trans _ _ _ _ _ _ _ D1 D2)|].
        split; cbn; [reflexivity|now rewrite app_nil_r].
      - rewrite !launches_app, !forallb_addressed_app, L2, A2.
        unfold addressed_to. cbn. now rewrite Nat.eqb_refl. }
  set (s3 := set_calls _ _).
  assert (D3 : delta s2 s3 [(CallFindElements d job_search_card, RetElements cards)] []).
  { split; cbn; [reflexivity|now rewrite app_nil_r]. }
  assert (Hc3 : cached s3 = Some (Some d)) by exact Hc2.
  clearbody s3.
  destruct (scrape_cards_effects cards s3)
    as (e4 & D4 & U4 & R4 & L4 & Q4 & N4 & Dr4 & C4).
  destruct (scrape_cards_addressed cards s3 d) as (e4' & D4' & A4).
  destruct (delta_inj _ _ _ _ _ _ D4 D4') as [<- _]. clear D4'.
  pose proof (scrape_cards_returns cards s3) as Hr.
  destruct (scrape_cards cards s3) as [s4 r4]. cbn [fst snd] in *. subst r4.
  intros [= <- <-]. split; [congruence|].
  exists ((([(CallGet d link, RetUnit tt)] ++ e2)
            ++ [(CallFindElements d job_search_card, RetElements cards)]) ++ e4),
         ((([UiProgressNew] ++ u2) ++ []) ++ []).
  split.
  - apply (delta_trans _ _ _ _ _ _ _ (delta_trans _ _ _ _ _ _ _
             (delta_trans _ _ _ _ _ _ _ D1 D2) D3) D4).
  - rewrite !launches_app, !forallb_addressed_app, L2, A2, L4, A4.
    unfold addressed_to. cbn. now rewrite Nat.eqb_refl.
Qed.

End SessionFacts.

Section QueryFacts.

Context {B : Type} {browser : Browser B}.

Lemma get_driver_launch (s : St B) :
  exists e0 u0,
    delta s (fst (get_driver s)) e0 u0
    /\ launches e0 <= 1
    /\ (cached s <> None -> launches e0 = 0)
    /\ forall d, forallb (addressed_to d) e0 = true.
Proof.
  destruct (get_driver_delta s) as [[Hc Hs] | [Hc (r & _ & Hr)]].
  - exists [], (map UiErrorInit (cached_errors s)). cbn zeta in Hs. rewrite Hs.
    repeat split; auto. cbn. now rewrite app_nil_r.
  - destruct r as [d|e]; destruct Hr as [Hr _].
    + exists [(CallChrome, RetDriver d)], []. repeat split; try apply Hr; auto.
      congruence.
    + exists [(CallChrome, Raised e)], [UiErrorInit e].
      repeat split; try apply Hr; auto. congruence.
Qed.

(** One query: at most one browser start, none when the store is filled;
    with a session, every driver command goes to it and it stays stored. *)
Lemma scrape_session (job_title location time_param : string) (n : nat)
    (s s' : St B) (r : JobData + exn) :
  scrape_linkedin_jobs job_title location time_param n s = (s', r) ->
  exists evs us,
    delta s s' evs us
    /\ launches evs <= 1
    /\ (cached s <> None -> launches evs = 0)
    /\ cached s' <> None
    /\ match snd (get_driver s) with
       | inl (Some d) =>
           forallb (addressed_to d) evs = true /\ cached s' = Some (Some d)
       | _ => forall d, forallb (addressed_to d) evs = true
       end.
Proof.
  rewrite scrape_unfold.
  destruct (get_driver_returns s) as (v & Hv & Hc).
  destruct (get_driver_launch s) as (e0 & u0 & D0 & L0 & L0' & A0).
  destruct (get_driver s) as [s0 r0]. cbn [fst snd] in *. subst r0.
  destruct v as [d|].
  - destruct (scrape_block _ n (at_try d s0)) as [s2 r2] eqn:Eb.
    destruct (scrape_block_session _ n (at_try d s0) s2 r2 d Hc eq_refl Eb)
      as (Hc2 & e1 & u1 & D1 & L1 & A1).
    assert (Da : delta s0 (at_try d s0) [] []) by (split; cbn; now rewrite app_nil_r).
    pose proof (delta_trans _ _ _ _ _ _ _ (delta_trans _ _ _ _ _ _ _ D0 Da) D1) as D.
    rewrite !app_nil_r in D.
    destruct r2 as [[]|e]; intros [= <- <-].
    + exists (e0 ++ e1), (u0 ++ u1). split; [exact D|].
      rewrite launches_app, forallb_addressed_app, L1, A0, A1.
      repeat split; try lia; try congruence. intros H. rewrite (L0' H). lia.
    + exists (e0 ++ e1), ((u0 ++ u1) ++ [UiErrorScraping e]). split.
      * split; cbn; [apply D|]. destruct D as [_ ->]. now rewrite <- app_assoc.
      * rewrite launches_app, forallb_addressed_app, L1, A0, A1. cbn.
        repeat split; try lia; try congruence. intros H. rewrite (L0' H). lia.
  - intros [= <- <-]. exists e0, u0. split; [split; cbn; apply D0|].
    cbn. repeat split; auto. congruence.
Qed.

(** X2.  Within one query every command to the driver, before and after
    any "Restart session", is sent to the session [get_driver] returned when
    the query began; that session is still the stored one when the query
    ends, and the query starts the browser at most once (never when the
    store was filled before). *)
Theorem query_keeps_one_session
    (job_title location time_param : string) (num_scrolls : nat) (s : St B) :
  exists s' r evs us,
    scrape_linkedin_jobs job_title location time_param num_scrolls s = (s', r)
    /\ delta s s' evs us
    /\ launches evs <= 1
    /\ match cached s with Some _ => launches evs = 0 | None => True end
    /\ match snd (get_driver s) with
       | inl (Some d) =>
           forallb (addressed_to d) evs = true /\ cached s' = Some (Some d)
       | _ => forall d, forallb (addressed_to d) evs = true
       end.
Proof.
  destruct (scrape_linkedin_jobs job_title location time_param num_scrolls s)
    as [s' r] eqn:E.
  destruct (scrape_session _ _ _ _ _ _ _ E) as (evs & us & D & L & L' & _ & A).
  exists s', r, evs, us. repeat split; try apply D; auto.
  destruct (cached s); [apply L'; discriminate|exact I].
Qed.

End QueryFacts.

Section RunFacts.

Context {B : Type} {browser : Browser B}.

Variables (location : string) (time_range : TimeRange) (num_scrolls : nat).

Lemma search_loop_launches (job_titles : list string) (all_results : DataFrame)
    (s s' : St B) (r : DataFrame + exn) :
  search_loop job_titles location time_range num_scrolls all_results s = (s', r) ->
  exists evs us,
    delta s s' evs us
    /\ launches evs <= 1
    /\ (cached s <> None -> launches evs = 0).
Proof.
  revert all_results s s' r.
  induction job_titles as [|q rest IH]; intros all_results s s' r.
  - intros [= <- <-]. exists [], []. repeat split; try apply delta_refl; auto.
  - rewrite search_loop_cons.
    set (s1 := set_ui (ui s ++ [UiSubheader q]) s).
    assert (D1 : delta s s1 [] [UiSubheader q])
      by (split; cbn; [now rewrite app_nil_r|reflexivity]).
    destruct (scrape_linkedin_jobs q location (time_range_param time_range)
                num_scrolls s1) as [s2 r2] eqn:Es.
    destruct (scrape_session _ _ _ _ _ _ _ Es) as (e2 & u2 & D2 & L2 & L2' & Hc2 & _).
    change (cached s1) with (cached s) in L2'.
    pose proof (delta_trans _ _ _ _ _ _ _ D1 D2) as D12. cbn [app] in D12.
    assert (Hnext : forall acc u3 s'' r'',
               search_loop rest location time_range num_scrolls acc
                 (set_ui (ui s2 ++ [u3]) s2) = (s'', r'') ->
               exists evs us,
                 delta s s'' evs us
                 /\ launches evs <= 1
                 /\ (cached s <> None -> launches evs = 0)).
    { intros acc u3 s'' r'' H.
      destruct (IH _ _ _ _ H) as (e4 & u4 & D4 & _ & L4).
      assert (D3 : delta s2 (set_ui (ui s2 ++ [u3]) s2) [] [u3])
        by (split; cbn; [now rewrite app_nil_r|reflexivity]).
      pose proof (delta_trans _ _ _ _ _ _ _
                    (delta_trans _ _ _ _ _ _ _ D12 D3) D4) as D.
      rewrite app_nil_r in D.
      eexists _, _. split; [exact D|].
      rewrite launches_app, (L4 Hc2). split; [lia|].
      intros H'. rewrite (L2' H'). reflexivity. }
    destruct r2 as [jd|e].
    + destruct (has_jobs jd).
      * unfold pd_DataFrame, ret, raise.
        destruct jd as [|t c l u].
        -- apply Hnext.
        -- destruct (rows_of t c l u) as [rows|].
           ++ apply Hnext.
           ++ intros [= <- <-]. exists e2, (UiSubheader q :: u2).
              repeat split; try apply D12; auto.
      * apply Hnext.
    + intros [= <- <-]. exists e2, (UiSubheader q :: u2).
      repeat split; try apply D12; auto.
Qed.

(** X1.  A run starts the browser at most once, however many job titles
    it processes and however many restarts happen, and not at all when the
    store of [get_driver] was filled before the run. *)
Theorem browser_started_at_most_once (job_titles : list string) (s : St B) :
  exists s' r evs us,
    main job_titles location time_range num_scrolls s = (s', r)
    /\ delta s s' evs us
    /\ launches evs <= 1
    /\ match cached s with Some _ => launches evs = 0 | None => True end.
Proof.
  unfold main. rewrite bind_run.
  destruct (search_loop job_titles location time_range num_scrolls [] s)
    as [s1 r1] eqn:E.
  destruct (search_loop_launches _ _ _ _ _ E) as (evs & us & D & L & L').
  assert (Lc : match cached s with Some _ => launches evs = 0 | None => True end)
    by (destruct (cached s); [apply L'; discriminate|exact I]).
  destruct r1 as [df|e].
  - rewrite bind_run.
    destruct df as [|row df]; cbn.
    + eexists _, _, evs, (us ++ [UiErrorNoJobs]). split; [reflexivity|].
      repeat split; auto; cbn; try apply D.
      destruct D as [_ ->]. now rewrite app_assoc.
    + eexists _, _, evs, (us ++ [UiResults (row :: df)]). split; [reflexivity|].
      repeat split; auto; cbn; try apply D.
      destruct D as [_ ->]. now rewrite app_assoc.
  - exists s1, (inr e), evs, us. repeat split; auto; apply D.
Qed.

End RunFacts.

(** ** Faults outside the card loop *)

Section BlockFacts.

Context {B : Type} {browser : Browser B}.

(** When the block under [try] raises, the four lists are as they were
    when it began: the card loop never raises, so the raise came before
    it. *)
Lemma scrape_block_raise_columns (link : string) (n : nat) (s s' : St B) (e : exn) :
  scrape_block link n s = (s', inr e) -> columns s' = columns s.
Proof.
  unfold scrape_block, scroll_loop, range.
  rewrite bind_run. unfold on_driver at 1.
  destruct (driver s) as [d|]; [|now intros [= <- _]].
  unfold call at 1.
  destruct (get d link (world s)) as [b [[]|e0]]; [|now intros [= <- _]].
  rewrite bind_run. unfold show at 1.
  set (s1 := set_ui _ _).
  assert (C1 : columns s1 = columns s) by reflexivity.
  clearbody s1.
  rewrite bind_run.
  destruct (scroll_rounds_effects link n n 0 s1)
    as (e2 & u2 & _ & _ & _ & _ & _ & _ & _ & C2).
  cbn zeta in C2.
  destruct (for_each (seq 0 n) (scroll_round link n) s1) as [s2 [[]|e0]];
    cbn [fst] in C2; [|intros [= <- _]; congruence].
  rewrite bind_run. unfold on_driver at 1.
  destruct (driver s2) as [d2|]; [|intros [= <- _]; congruence].
  unfold call at 1.
  destruct (find_elements d2 job_search_card (world s2)) as [b3 [cards|e0]];
    [|intros [= <- _]; cbn; unfold columns in *; cbn; congruence].
  intros H.
  pose proof (scrape_cards_returns cards
                (set_calls (calls s2 ++ [(CallFindElements d2 job_search_card,
                                          RetElements cards)])
                   (set_world b3 s2))) as Hr.
  rewrite H in Hr. discriminate.
Qed.

(** X3.  A raise anywhere in the [try] block of a query (first navigation,
    scroll loop and its restart, listing the containers) is shown as "Error
    during scraping" and the query returns four empty lists, which the main
    loop treats as "no jobs": nothing extracted is ever returned together
    with that error. *)
Theorem fault_outside_cards_returns_nothing
    (job_title location time_param : string) (num_scrolls : nat)
    (s s0 s2 : St B) (d : WebDriver) (e : exn) :
  get_driver s = (s0, inl (Some d)) ->
  scrape_block (link job_title location time_param) num_scrolls (at_try d s0)
  = (s2, inr e) ->
  scrape_linkedin_jobs job_title location time_param num_scrolls s
  = (set_ui (ui s2 ++ [UiErrorScraping e]) s2, inl (Results [] [] [] []))
  /\ has_jobs (Results [] [] [] []) = false.
Proof.
  intros Hg Hb. split; [|reflexivity].
  rewrite scrape_unfold, Hg, Hb.
  pose proof (scrape_block_raise_columns _ _ _ _ _ Hb) as Hc.
  unfold columns, results_of in *. cbn in Hc. now inversion Hc.
Qed.

(** ** The card loop, container by container *)

Lemma titles_of_app (a b : list (@AnchorOutcome B)) :
  titles_of (a ++ b) = titles_of a ++ titles_of b.
Proof. apply flat_map_app. Qed.

Lemma urls_of_app (a b : list (@AnchorOutcome B)) :
  urls_of (a ++ b) = urls_of a ++ urls_of b.
Proof. apply flat_map_app. Qed.

(** X4.  The columns list the containers in document order: after a batch
    the title column is what it was followed by the titles read, container
    by container, and the url column is what it was followed by the [href]
    values read; the company and location columns have grown by as many
    entries as the title column. *)
Theorem columns_in_document_order (cards : list WebElement) (s : St B) :
  let s' := fst (scrape_cards cards s) in
  let outs := anchor_outcomes cards s in
  job_titles_list s' = job_titles_list s ++ titles_of outs
  /\ job_urls s' = job_urls s ++ urls_of outs
  /\ List.length (company_names s')
     = List.length (company_names s) + List.length (titles_of outs)
  /\ List.length (locations_list s')
     = List.length (locations_list s) + List.length (titles_of outs).
Proof.
  revert s. induction cards as [|card cards IH]; intros s; cbn zeta.
  - cbn. rewrite !app_nil_r. repeat split; lia.
  - rewrite scrape_cards_cons. cbn [anchor_outcomes].
    specialize (IH (fst (scrape_card card s))). cbn zeta in IH.
    destruct IH as (Ht & Hu & Hc & Hl).
    pose proof (scrape_card_columns card s) as H.
    rewrite Ht, Hu, Hc, Hl.
    change (?o :: ?l) with ([o] ++ l).
    rewrite titles_of_app, urls_of_app, !length_app.
    destruct (anchor_outcome card (world s)); unfold columns in H;
      inversion H as [[Et Ec El Eu]]; rewrite Et, Ec, El, Eu;
      cbn [titles_of urls_of flat_map app List.length];
      rewrite ?length_app, ?app_nil_r, <- ?app_assoc; cbn [List.length app];
      repeat split; lia.
Qed.

(** ** Completed scroll loops *)

(** A round that ends normally has sent one scroll command and has either
    reported its progress or gone through a restart, not both. *)
Lemma scroll_round_completed (link : string) (n i : nat) (s : St B) :
  exists evs us,
    delta s (fst (scroll_round link n i s)) evs us
    /\ match snd (scroll_round link n i s) with
       | inl _ =>
           rounds_started evs = 1
           /\ List.length (progress_reports us) + restarts us = 1
       | inr _ => List.length (progress_reports us) + restarts us <= 1
       end.
Proof.
  destruct s.
  unfold scroll_round, restart_session, get_driver, cache_resource, delta.
  unfold_monad. cbn.
  repeat (first [case_call | case_var]; cbn).
  all: eexists; eexists; split;
    [split; rewrite <- ?app_assoc; try reflexivity; symmetry; apply app_nil_r|].
  all: rewrite ?progress_reports_app, ?restarts_app,
         ?progress_reports_init, ?restarts_init.
  all: cbn; repeat split; lia.
Qed.

Lemma scroll_rounds_completed (link : string) (n len a : nat) (s : St B) :
  let run := for_each (seq a len) (scroll_round link n) s in
  exists evs us,
    delta s (fst run) evs us
    /\ match snd run with
       | inl _ =>
           rounds_started evs = len
           /\ List.length (progress_reports us) + restarts us = len
       | inr _ => List.length (progress_reports us) + restarts us <= len
       end.
Proof.
  cbn zeta. revert a s. induction len as [|len IH]; intros a s.
  - exists [], []. split; [apply delta_refl|]. cbn. split; reflexivity.
  - cbn [seq]. rewrite for_each_cons.
    destruct (scroll_round_completed link n a s) as (e1 & u1 & D1 & H1).
    destruct (scroll_round link n a s) as [s1 [[]|e]]; cbn [fst snd] in *.
    + destruct (IH (S a) s1) as (e2 & u2 & D2 & H2).
      exists (e1 ++ e2), (u1 ++ u2).
      split; [apply (delta_trans _ _ _ _ _ _ _ D1 D2)|].
      rewrite rounds_started_app, progress_reports_app, length_app, restarts_app.
      destruct (snd (for_each (seq (S a) len) (scroll_round link n) s1)); lia.
    + exists e1, u1. split; [exact D1|]. lia.
Qed.

(** X5.  A scroll loop that runs to its end has begun exactly
    [num_scrolls] rounds, and every one of them either reported its progress
    or went through a restart: progress reports and restarts add up to
    [num_scrolls].  When the loop is cut short they add up to at most
    that. *)
Theorem completed_loop_runs_every_round (link : string) (num_scrolls : nat)
    (s : St B) :
  exists s' r evs us,
    scroll_loop link num_scrolls s = (s', r)
    /\ delta s s' evs us
    /\ match r with
       | inl _ =>
           rounds_started evs = num_scrolls
           /\ List.length (progress_reports us) + restarts us = num_scrolls
       | inr _ =>
           List.length (progress_reports us) + restarts us <= num_scrolls
       end.
Proof.
  destruct (scroll_rounds_completed link num_scrolls num_scrolls 0 s)
    as (evs & us & D & H).
  cbn zeta in *. fold (range num_scrolls) in *.
  fold (scroll_loop link num_scrolls) in *.
  destruct (scroll_loop link num_scrolls s) as [s' r]. cbn [fst snd] in *.
  now exists s', r, evs, us.
Qed.


End BlockFacts.

Lemma fault_outside_cards_returns_nothing_witness :
  let s := Stub.fresh (Stub.page false true [0] None [Stub.full "x"]) in
  snd (scrape_linkedin_jobs "a" "India" "r604800" 2 s) = inl (Results [] [] [] []).
Proof.
  cbn zeta.
  set (s := Stub.fresh _).
  pose proof (fault_outside_cards_returns_nothing "a" "India" "r604800" 2 s
                (fst (get_driver s)) 
                (fst (scrape_block (link "a" "India" "r604800") 2
                        (at_try 1 (fst (get_driver s)))))
                1 OtherException) as H.
  destruct H as [H _].
  - vm_compute. reflexivity.
  - vm_compute. reflexivity.
  - rewrite H. reflexivity.
Defined.

(** ** Tables *)

Lemma rows_of_lengths (t c l : list string) (u : list (option string)) :
  (exists rows, rows_of t c l u = Some rows /\ List.length rows = List.length u)
  <-> (List.length t = List.length c /\ List.length c = List.length l
       /\ List.length l = List.length u).
Proof.
  revert c l u.
  induction t as [|t0 t IH]; intros [|c0 c] [|l0 l] [|u0 u]; cbn;
    try (split; [intros (rows & H & _); discriminate | intros (H1 & H2 & H3); discriminate]).
  - split; [auto|]. intros _. now exists [].
  - specialize (IH c l u). split.
    + intros (rows & H & Hl).
      destruct (rows_of t c l u) as [rs|] eqn:E; [|discriminate].
      injection H as <-. cbn in Hl.
      destruct (proj1 IH) as (H1 & H2 & H3); [exists rs; split; [reflexivity|lia]|].
      lia.
    + intros (H1 & H2 & H3).
      destruct (proj2 IH) as (rs & -> & Hl); [lia|].
      exists (mkListing t0 c0 l0 u0 :: rs). cbn. split; [reflexivity|lia].
Qed.

Lemma existsb_filter_length {A} (f : A -> bool) (l : list A) :
  existsb f l = true <-> 0 < List.length (filter f l).
Proof.
  induction l as [|x l IH]; cbn; [split; [discriminate|lia]|].
  destruct (f x); cbn; [split; [lia|reflexivity]|exact IH].
Qed.

Section TableFacts.

Context {B : Type} {browser : Browser B}.

(** X7.  Starting from empty lists, the title, company and location
    columns of a batch always have one length, and the url column exceeds it
    by the number of containers whose title read raised after their [href]
    was read.  So the four columns make a table exactly when no title read
    raised. *)
Theorem table_fails_iff_title_fault (cards : list WebElement) (s : St B) :
  columns s = ([], [], [], []) ->
  let s' := fst (scrape_cards cards s) in
  let outs := anchor_outcomes cards s in
  List.length (job_titles_list s') = List.length (company_names s')
  /\ List.length (company_names s') = List.length (locations_list s')
  /\ List.length (job_urls s')
     = List.length (job_titles_list s') + List.length (filter is_no_title outs)
  /\ (rows_of (job_titles_list s') (company_names s') (locations_list s')
        (job_urls s') = None
      <-> existsb is_no_title outs = true).
Proof.
  intros H0. cbn zeta.
  pose proof (scrape_cards_lengths cards s) as H. cbn zeta in H.
  destruct H as (Hu & Ht & Hc & Hl).
  set (s' := fst (scrape_cards cards s)) in *.
  set (outs := anchor_outcomes cards s) in *.
  unfold columns in H0. injection H0 as E1 E2 E3 E4.
  rewrite E4 in Hu. rewrite E1 in Ht. rewrite E2 in Hc. rewrite E3 in Hl.
  cbn [List.length] in Hu, Ht, Hc, Hl. clearbody s' outs.
  split; [lia|]. split; [lia|]. split; [lia|].
  rewrite existsb_filter_length.
  pose proof (rows_of_lengths (job_titles_list s') (company_names s')
                (locations_list s') (job_urls s')) as Hr.
  destruct (rows_of (job_titles_list s') (company_names s')
              (locations_list s') (job_urls s')) as [rows|] eqn:Er.
  - split; [discriminate|]. intros Hpos.
    destruct (proj1 Hr) as (H1 & H2 & H3).
    + exists rows. split; [reflexivity|].
      clear - Er. revert Er. generalize (job_titles_list s') (company_names s')
                               (locations_list s') (job_urls s').
      intros t. revert rows.
      induction t as [|t0 t IH]; intros rows [|c0 c] [|l0 l] [|u0 u]; cbn;
        try discriminate.
      * now intros [= <-].
      * destruct (rows_of t c l u) as [rs|] eqn:E; [|discriminate].
        intros [= <-]. cbn. now rewrite (IH _ _ _ _ E).
    + lia.
  - split; [|reflexivity]. intros _.
    destruct (Nat.eq_dec (List.length (filter is_no_title outs)) 0) as [Hz|Hz];
      [|lia].
    destruct (proj2 Hr) as (rows & Hrows & _); [lia|discriminate].
Qed.

Variables (location : string) (time_range : TimeRange) (num_scrolls : nat).

(** The main loop stops with [ValueError] at the first query whose columns
    make no table. *)
Lemma search_loop_ragged (job_titles : list string) (all_results : DataFrame)
    (s : St B) :
  Exists (fun qb => table_of (fst qb) (snd qb) = None)
         (batches job_titles location time_range num_scrolls s) ->
  snd (search_loop job_titles location time_range num_scrolls all_results s)
  = inr ValueError.
Proof.
  revert all_results s.
  induction job_titles as [|q rest IH]; intros all_results s Hex.
  - cbn in Hex. inversion Hex.
  - rewrite search_loop_cons. cbn [batches] in Hex.
    destruct (scrape_linkedin_jobs q location (time_range_param time_range)
                num_scrolls (set_ui (ui s ++ [UiSubheader q]) s))
      as [s2 [jd|e]]; [|inversion Hex].
    assert (Hrep : report q jd
                   = if has_jobs jd then UiFound (List.length (tagged q jd)) q
                     else UiWarningNoJobs q) by reflexivity.
    destruct (table_of q jd) as [df|] eqn:Et.
    + assert (Htail : Exists (fun qb => table_of (fst qb) (snd qb) = None)
                        (batches rest location time_range num_scrolls
                           (set_ui (ui s2 ++ [report q jd]) s2))).
      { inversion Hex as [x l Hh|x l Ht]; subst; [|exact Ht].
        cbn in Hh. congruence. }
      unfold table_of in Et. unfold tagged, table_of in Hrep.
      destruct (has_jobs jd) eqn:Hj.
      * destruct jd as [|t c l u]; [discriminate|].
        unfold pd_DataFrame, ret.
        destruct (rows_of t c l u) as [rows|]; [|discriminate].
        cbn [option_map] in Hrep. rewrite <- Hrep. apply IH. exact Htail.
      * rewrite <- Hrep. apply IH. exact Htail.
    + unfold table_of in Et.
      destruct (has_jobs jd); [|discriminate].
      destruct jd as [|t c l u]; [discriminate|].
      unfold pd_DataFrame, raise.
      destruct (rows_of t c l u); [discriminate|reflexivity].
Qed.

Lemma tables_decide (l : list (string * JobData)) :
  Forall (fun qb => table_of (fst qb) (snd qb) <> None) l
  \/ Exists (fun qb => table_of (fst qb) (snd qb) = None) l.
Proof.
  induction l as [|qb l [IH|IH]].
  - left. constructor.
  - destruct (table_of (fst qb) (snd qb)) eqn:E.
    + left. constructor; [congruence|exact IH].
    + right. now constructor.
  - right. now constructor 2.
Qed.

(** X8.  A run ends in one of two ways.  Either every query returned
    columns that make a table (or no jobs): then every job title was
    processed, in the order given, and the final table is the rows of the
    queries one after the other, each tagged with its job title, none
    dropped or merged.  Or some query returned columns of unequal length:
    then the run stops with [ValueError], the only exception a run can end
    with. *)
Theorem run_returns_tables_or_value_error (job_titles : list string) (s : St B) :
  let bs := batches job_titles location time_range num_scrolls s in
  (Forall (fun qb => table_of (fst qb) (snd qb) <> None) bs
   /\ map fst bs = job_titles
   /\ snd (main job_titles location time_range num_scrolls s)
      = inl (flat_map (fun qb => tagged (fst qb) (snd qb)) bs))
  \/ (Exists (fun qb => table_of (fst qb) (snd qb) = None) bs
      /\ snd (main job_titles location time_range num_scrolls s) = inr ValueError).
Proof.
  cbn zeta.
  destruct (tables_decide (batches job_titles location time_range num_scrolls s))
    as [Hok|Hbad].
  - left. split; [exact Hok|].
    destruct (search_loop_batches location time_range num_scrolls job_titles [] s Hok)
      as (s1 & evs & us & E & Hm & _).
    split; [exact Hm|].
    unfold main. rewrite bind_run, E. cbn [app]. rewrite bind_run.
    destruct (flat_map _ _); reflexivity.
  - right. split; [exact Hbad|].
    pose proof (search_loop_ragged job_titles [] s Hbad) as H.
    unfold main. rewrite bind_run.
    destruct (search_loop job_titles location time_range num_scrolls [] s)
      as [s1 r1]. cbn [snd] in H. now subst r1.
Qed.

End TableFacts.

Lemma table_fails_iff_title_fault_witness :
  let s := Stub.fresh (Stub.page false true [] None
                         [Stub.full "x"; Stub.stale_title "y"]) in
  let s' := fst (scrape_cards [10; 20] s) in
  List.length (job_urls s') = List.length (job_titles_list s') + 1
  /\ rows_of (job_titles_list s') (company_names s') (locations_list s')
       (job_urls s') = None.
Proof.
  cbn zeta.
  set (s := Stub.fresh _).
  pose proof (table_fails_iff_title_fault [10; 20] s eq_refl) as (_ & _ & Hu & Hr).
  split.
  - exact Hu.
  - apply (proj2 Hr). vm_compute. reflexivity.
Defined.

(** ** The link, character by character *)

Module CountFacts.
Import PyStr PyStrFacts.

Lemma count_char_app (c : ascii) (a b : string) :
  count_char c (a ++ b) = count_char c a + count_char c b.
Proof.
  induction a as [|d a IH]; [reflexivity|].
  cbn [String.append count_char]. rewrite IH. lia.
Qed.

Lemma count_char_replace (c old : ascii) (new s : string) :
  Ascii.eqb old c = false -> count_char c new = 0 ->
  count_char c (replace old new s) = count_char c s.
Proof.
  intros Hc Hn. induction s as [|d s IH]; [reflexivity|].
  cbn [replace count_char].
  destruct (Ascii.eqb d old) eqn:E.
  - apply Ascii.eqb_eq in E. subst d. rewrite Hc, count_char_app, Hn, IH. reflexivity.
  - cbn [count_char]. now rewrite IH.
Qed.

(** Occurrences after a replacement, for any character: those of the
    string that were not replaced, and those of [new] once for every
    replaced character. *)
Lemma count_char_replaced (c old : ascii) (new s : string) :
  count_char c (replace old new s)
  = (if Ascii.eqb old c then 0 else count_char c s)
    + count_char c new * count_char old s.
Proof.
  induction s as [|d s IH]; [cbn; destruct (Ascii.eqb old c); lia|].
  cbn [replace count_char].
  destruct (Ascii.eqb d old) eqn:E.
  - apply Ascii.eqb_eq in E. subst d.
    rewrite count_char_app, IH.
    destruct (Ascii.eqb old c); nia.
  - cbn [count_char]. rewrite IH.
    destruct (Ascii.eqb old c) eqn:Ec.
    + apply Ascii.eqb_eq in Ec. subst c. rewrite E. nia.
    + nia.
Qed.

Lemma replace_without (old : ascii) (new s : string) :
  has_char old s = false -> replace old new s = s.
Proof.
  induction s as [|d s IH]; [reflexivity|].
  cbn [has_char replace]. intros H. apply orb_false_elim in H as [H1 H2].
  rewrite H1. now rewrite IH.
Qed.

Lemma replace_changes (old : ascii) (new s : string) :
  has_char old new = false -> has_char old s = true -> replace old new s <> s.
Proof.
  intros Hn Hs Heq.
  pose proof (replace_removes old new s Hn) as H. rewrite Heq in H. congruence.
Qed.

End CountFacts.

(** X9.  Only the space is encoded.  For every character, the number of
    its occurrences in the link is the number of its occurrences in the job
    title and in the location (none of these for the space itself), plus,
    for each of the three characters of [%20], one for every space of the
    title and the location, plus its occurrences in the fixed text of the
    link.  Reserved characters such as [&], [=], [#] and [?] are among
    those that reach the link as often as they were typed. *)
Theorem link_passes_other_characters
    (c : ascii) (job_title location : string) (t : TimeRange) :
  PyStr.count_char c (link job_title location (time_range_param t))
  = (if Ascii.eqb " " c then 0
     else PyStr.count_char c job_title + PyStr.count_char c location)
    + PyStr.count_char c "%20"
      * (PyStr.count_char " " job_title + PyStr.count_char " " location)
    + PyStr.count_char c (link "" "" (time_range_param t)).
Proof.
  rewrite (link_window job_title location t), (link_window "" "" t), !link_any.
  unfold job_param, location_param, PyStr.space.
  rewrite !CountFacts.count_char_app.
  rewrite !(CountFacts.count_char_replaced c " " "%20").
  set (k := PyStr.count_char c "%20"). clearbody k.
  cbn [PyStr.replace PyStr.count_char].
  destruct (Ascii.eqb " " c); nia.
Qed.

(** X10.  The encoding of title and location changes a string exactly when
    it contains a space, and encoding twice is the same as encoding once. *)
Theorem encoding_fixes_space_free (s : string) :
  (job_param s = s <-> PyStr.has_char " " s = false)
  /\ job_param (job_param s) = job_param s
  /\ location_param s = job_param s.
Proof.
  unfold job_param, location_param, PyStr.space.
  assert (Hr : PyStr.has_char " " (PyStr.replace " " "%20" s) = false)
    by (apply PyStrFacts.replace_removes; reflexivity).
  repeat split.
  - intros H. now rewrite <- H.
  - apply CountFacts.replace_without.
  - now apply CountFacts.replace_without.
Qed.

(** ** The job titles typed into the form *)

Module PyTextFacts.
Import PyStr PyStrFacts PyText.

Lemma split_not_nil (sep : ascii) (s : string) : split sep s <> [].
Proof.
  induction s as [|c s IH]; cbn; [discriminate|].
  destruct (Ascii.eqb c sep); [discriminate|].
  destruct (split sep s); [contradiction|discriminate].
Qed.

Lemma split_length (sep : ascii) (s : string) :
  List.length (split sep s) = count_char sep s + 1.
Proof.
  induction s as [|c s IH]; [reflexivity|].
  cbn [split count_char]. pose proof (split_not_nil sep s) as Hn.
  destruct (Ascii.eqb c sep); cbn [List.length]; [lia|].
  destruct (split sep s); [contradiction|]. cbn [List.length] in *. lia.
Qed.

Lemma split_no_sep (sep : ascii) (s : string) :
  Forall (fun piece => has_char sep piece = false) (split sep s).
Proof.
  induction s as [|c s IH]; cbn [split]; [repeat constructor|].
  destruct (Ascii.eqb c sep) eqn:E; [constructor; [reflexivity|exact IH]|].
  destruct (split sep s) as [|p ps]; [repeat constructor; cbn; now rewrite E|].
  inversion IH as [|x l Hp Hps]; subst.
  constructor; [cbn; now rewrite E, Hp|exact Hps].
Qed.

Lemma join_split (sep : ascii) (s : string) :
  join (String sep EmptyString) (split sep s) = s.
Proof.
  induction s as [|c s IH]; [reflexivity|].
  cbn [split]. pose proof (split_not_nil sep s) as Hn.
  destruct (Ascii.eqb c sep) eqn:E.
  - apply Ascii.eqb_eq in E. subst c.
    destruct (split sep s) as [|p ps]; [contradiction|].
    cbn [join String.append] in *. now rewrite IH.
  - destruct (split sep s) as [|p ps]; [contradiction|].
    destruct ps as [|p' ps]; cbn [join String.append] in *; now rewrite IH.
Qed.

Lemma append_nil_r (s : string) : (s ++ "")%string = s.
Proof. induction s as [|c s IH]; cbn; [reflexivity|]. now rewrite IH. Qed.

Lemma rev_app (a b : string) : rev (a ++ b) = (rev b ++ rev a)%string.
Proof.
  induction a as [|c a IH]; cbn; [now rewrite append_nil_r|].
  now rewrite IH, append_assoc.
Qed.

Lemma rev_involutive (s : string) : rev (rev s) = s.
Proof.
  induction s as [|c s IH]; [reflexivity|].
  cbn [rev]. rewrite rev_app, IH. reflexivity.
Qed.

Lemma rev_length (s : string) : String.length (rev s) = String.length s.
Proof.
  induction s as [|c s IH]; [reflexivity|].
  cbn [rev String.length]. rewrite length_app, IH. cbn. lia.
Qed.

(** What [ws_prefix] and [ws_prefix_rev] remove is a non-empty prefix. *)
Lemma ws_prefix_cut (s rest : string) :
  ws_prefix s = Some rest ->
  exists w, s = (w ++ rest)%string /\ String.length rest < String.length s.
Proof.
  destruct s as [|a [|b [|c r]]]; cbn; try discriminate.
  - destruct (is_space1 a); [|discriminate]. intros [= <-].
    exists (String a ""). split; [reflexivity|cbn; lia].
  - destruct (is_space1 a); [intros [= <-]; exists (String a ""); split; [reflexivity|cbn; lia]|].
    destruct (is_space2 a b); [|discriminate]. intros [= <-].
    exists (String a (String b "")). split; [reflexivity|cbn; lia].
  - destruct (is_space1 a); [intros [= <-]; exists (String a ""); split; [reflexivity|cbn; lia]|].
    destruct (is_space2 a b);
      [intros [= <-]; exists (String a (String b "")); split; [reflexivity|cbn; lia]|].
    destruct (is_space3 a b c); [|discriminate]. intros [= <-].
    exists (String a (String b (String c ""))). split; [reflexivity|cbn; lia].
Qed.

Lemma ws_prefix_rev_cut (s rest : string) :
  ws_prefix_rev s = Some rest ->
  exists w, s = (w ++ rest)%string /\ String.length rest < String.length s.
Proof.
  destruct s as [|a [|b [|c r]]]; cbn; try discriminate.
  - destruct (is_space1 a); [|discriminate]. intros [= <-].
    exists (String a ""). split; [reflexivity|cbn; lia].
  - destruct (is_space1 a); [intros [= <-]; exists (String a ""); split; [reflexivity|cbn; lia]|].
    destruct (is_space2 b a); [|discriminate]. intros [= <-].
    exists (String a (String b "")). split; [reflexivity|cbn; lia].
  - destruct (is_space1 a); [intros [= <-]; exists (String a ""); split; [reflexivity|cbn; lia]|].
    destruct (is_space2 b a);
      [intros [= <-]; exists (String a (String b "")); split; [reflexivity|cbn; lia]|].
    destruct (is_space3 c b a); [|discriminate]. intros [= <-].
    exists (String a (String b (String c ""))). split; [reflexivity|cbn; lia].
Qed.

Lemma ws_prefix_app (u rest w : string) :
  ws_prefix u = Some rest -> ws_prefix (u ++ w) = Some (rest ++ w)%string.
Proof.
  destruct u as [|a [|b [|c r]]]; cbn; try discriminate.
  - destruct (is_space1 a); [|discriminate]. now intros [= <-].
  - destruct (is_space1 a); [now intros [= <-]|].
    destruct (is_space2 a b); [|discriminate]. now intros [= <-].
  - destruct (is_space1 a); [now intros [= <-]|].
    destruct (is_space2 a b); [now intros [= <-]|].
    destruct (is_space3 a b c); [|discriminate]. now intros [= <-].
Qed.

Section DropWhile.

Variable next : string -> option string.

Hypothesis next_cut :
  forall s rest, next s = Some rest ->
    exists w, s = (w ++ rest)%string /\ String.length rest < String.length s.

Lemma drop_while_cut (n : nat) (s : string) :
  exists w, s = (w ++ drop_while next n s)%string.
Proof.
  revert s. induction n as [|n IH]; intros s; cbn.
  - now exists "".
  - destruct (next s) as [rest|] eqn:E; [|now exists ""].
    destruct (next_cut _ _ E) as (w & -> & _).
    destruct (IH rest) as (w' & Hw').
    exists (w ++ w')%string. rewrite <- append_assoc. now rewrite <- Hw'.
Qed.

(** With as many steps as the string has bytes, nothing is left to
    remove. *)
Lemma drop_while_done (n : nat) (s : string) :
  String.length s <= n -> next (drop_while next n s) = None.
Proof.
  revert s. induction n as [|n IH]; intros s Hn; cbn.
  - destruct (next s) as [rest|] eqn:E; [|reflexivity].
    destruct (next_cut _ _ E) as (_ & _ & Hl). lia.
  - destruct (next s) as [rest|] eqn:E; [|exact E].
    apply IH. destruct (next_cut _ _ E) as (_ & _ & Hl). lia.
Qed.

Lemma drop_while_none (n : nat) (s : string) :
  next s = None -> drop_while next n s = s.
Proof. intros H. destruct n; cbn; [reflexivity|now rewrite H]. Qed.

End DropWhile.

Lemma lstrip_cut (s : string) : exists w, s = (w ++ lstrip s)%string.
Proof. apply drop_while_cut, ws_prefix_cut. Qed.

Lemma lstrip_done (s : string) : ws_prefix (lstrip s) = None.
Proof. apply drop_while_done; [apply ws_prefix_cut|lia]. Qed.

Lemma rstrip_cut (s : string) : exists w, s = (rstrip s ++ w)%string.
Proof.
  unfold rstrip.
  destruct (drop_while_cut ws_prefix_rev ws_prefix_rev_cut
              (String.length s) (rev s)) as (w & Hw).
  exists (rev w). rewrite <- rev_app, <- Hw. now rewrite rev_involutive.
Qed.

Lemma rstrip_done (s : string) : ws_prefix_rev (rev (rstrip s)) = None.
Proof.
  unfold rstrip. rewrite rev_involutive.
  apply drop_while_done; [apply ws_prefix_rev_cut|now rewrite rev_length].
Qed.

Lemma strip_cut (s : string) :
  exists pre post, s = (pre ++ strip s ++ post)%string.
Proof.
  destruct (lstrip_cut s) as (pre & Hpre).
  destruct (rstrip_cut (lstrip s)) as (post & Hpost).
  exists pre, post. unfold strip. now rewrite <- Hpost.
Qed.

Lemma strip_done (s : string) :
  ws_prefix (strip s) = None /\ ws_prefix_rev (rev (strip s)) = None.
Proof.
  split; [|apply rstrip_done].
  destruct (ws_prefix (strip s)) as [rest|] eqn:E; [|reflexivity].
  destruct (rstrip_cut (lstrip s)) as (post & Hpost).
  pose proof (ws_prefix_app _ _ post E) as H.
  unfold strip in H. rewrite <- Hpost, lstrip_done in H. discriminate.
Qed.

Lemma strip_fixed (s : string) :
  ws_prefix s = None -> ws_prefix_rev (rev s) = None -> strip s = s.
Proof.
  intros H1 H2. unfold strip, lstrip. rewrite (drop_while_none _ _ _ H1).
  unfold rstrip. rewrite (drop_while_none _ _ _ H2). apply rev_involutive.
Qed.

Lemma has_char_inside (c : ascii) (pre s post : string) :
  has_char c (pre ++ s ++ post) = false -> has_char c s = false.
Proof.
  rewrite !has_char_app. intros H.
  apply orb_false_elim in H as [_ H]. now apply orb_false_elim in H as [H _].
Qed.

Lemma ws_prefix_space (s : string) :
  ws_prefix s = None -> startswith " " s = false.
Proof.
  destruct s as [|a r]; [reflexivity|]. cbn [startswith].
  destruct (Ascii.eqb " " a) eqn:E; [|reflexivity].
  apply Ascii.eqb_eq in E. subst a. cbn. discriminate.
Qed.

Lemma ws_prefix_rev_space (s : string) :
  ws_prefix_rev s = None -> startswith " " s = false.
Proof.
  destruct s as [|a r]; [reflexivity|]. cbn [startswith].
  destruct (Ascii.eqb " " a) eqn:E; [|reflexivity].
  apply Ascii.eqb_eq in E. subst a. cbn. discriminate.
Qed.

(** Arithmetic on the byte values of the whitespace tables. *)
Ltac space_arith :=
  unfold is_space1, is_space2, is_space3 in *; cbv zeta in *;
  repeat (rewrite ?andb_true_iff, ?orb_true_iff, ?andb_false_iff, ?orb_false_iff,
            ?Nat.eqb_eq, ?Nat.eqb_neq, ?Nat.leb_le, ?Nat.leb_gt in * );
  lia.

Lemma ws_prefix_one (s rest : string) :
  ws_prefix s = Some rest ->
  exists w, s = (w ++ rest)%string /\ String.length rest < String.length s
            /\ ws_prefix w = Some "".
Proof.
  destruct s as [|a [|b [|c r]]]; cbn; try discriminate.
  - destruct (is_space1 a) eqn:E1; [|discriminate]. intros [= <-].
    exists (String a ""). cbn. rewrite E1. repeat split; lia.
  - destruct (is_space1 a) eqn:E1;
      [intros [= <-]; exists (String a ""); cbn; rewrite E1; repeat split; lia|].
    destruct (is_space2 a b) eqn:E2; [|discriminate]. intros [= <-].
    exists (String a (String b "")). cbn. rewrite E1, E2. repeat split; lia.
  - destruct (is_space1 a) eqn:E1;
      [intros [= <-]; exists (String a ""); cbn; rewrite E1; repeat split; lia|].
    destruct (is_space2 a b) eqn:E2;
      [intros [= <-]; exists (String a (String b "")); cbn; rewrite E1, E2;
       repeat split; lia|].
    destruct (is_space3 a b c) eqn:E3; [|discriminate]. intros [= <-].
    exists (String a (String b (String c ""))). cbn. rewrite E1, E2, E3.
    repeat split; lia.
Qed.

Lemma ws_prefix_rev_one (s rest : string) :
  ws_prefix_rev s = Some rest ->
  exists w, s = (w ++ rest)%string /\ String.length rest < String.length s
            /\ ws_prefix_rev w = Some "".
Proof.
  destruct s as [|a [|b [|c r]]]; cbn; try discriminate.
  - destruct (is_space1 a) eqn:E1; [|discriminate]. intros [= <-].
    exists (String a ""). cbn. rewrite E1. repeat split; lia.
  - destruct (is_space1 a) eqn:E1;
      [intros [= <-]; exists (String a ""); cbn; rewrite E1; repeat split; lia|].
    destruct (is_space2 b a) eqn:E2; [|discriminate]. intros [= <-].
    exists (String a (String b "")). cbn. rewrite E1, E2. repeat split; lia.
  - destruct (is_space1 a) eqn:E1;
      [intros [= <-]; exists (String a ""); cbn; rewrite E1; repeat split; lia|].
    destruct (is_space2 b a) eqn:E2;
      [intros [= <-]; exists (String a (String b "")); cbn; rewrite E1, E2;
       repeat split; lia|].
    destruct (is_space3 c b a) eqn:E3; [|discriminate]. intros [= <-].
    exists (String a (String b (String c ""))). cbn. rewrite E1, E2, E3.
    repeat split; lia.
Qed.

Lemma ws_prefix_rev_app (u rest w : string) :
  ws_prefix_rev u = Some rest -> ws_prefix_rev (u ++ w) = Some (rest ++ w)%string.
Proof.
  destruct u as [|a [|b [|c r]]]; cbn; try discriminate.
  - destruct (is_space1 a); [|discriminate]. now intros [= <-].
  - destruct (is_space1 a); [now intros [= <-]|].
    destruct (is_space2 b a); [|discriminate]. now intros [= <-].
  - destruct (is_space1 a); [now intros [= <-]|].
    destruct (is_space2 b a); [now intros [= <-]|].
    destruct (is_space3 c b a); [|discriminate]. now intros [= <-].
Qed.

(** One whitespace character read forwards is one read backwards. *)
Lemma ws_prefix_reversed (w : string) :
  ws_prefix w = Some "" -> ws_prefix_rev (rev w) = Some "".
Proof.
  destruct w as [|a [|b [|c [|d r]]]]; cbn; try discriminate.
  - destruct (is_space1 a); [reflexivity|discriminate].
  - destruct (is_space1 a) eqn:E1; [discriminate|].
    destruct (is_space2 a b) eqn:E2; [|discriminate]. intros _.
    assert (H : is_space1 b = false).
    { destruct (is_space1 b) eqn:E; [|reflexivity]. exfalso. space_arith. }
    now rewrite H.
  - destruct (is_space1 a) eqn:E1; [discriminate|].
    destruct (is_space2 a b) eqn:E2; [discriminate|].
    destruct (is_space3 a b c) eqn:E3; [|discriminate]. intros _.
    assert (H : is_space1 c = false).
    { destruct (is_space1 c) eqn:E; [|reflexivity]. exfalso. space_arith. }
    assert (H' : is_space2 b c = false).
    { destruct (is_space2 b c) eqn:E; [|reflexivity]. exfalso. space_arith. }
    now rewrite H, H'.
  - destruct (is_space1 a); [discriminate|].
    destruct (is_space2 a b); [discriminate|].
    destruct (is_space3 a b c); discriminate.
Qed.

Lemma ws_prefix_rev_reversed (w : string) :
  ws_prefix_rev w = Some "" -> ws_prefix (rev w) = Some "".
Proof.
  destruct w as [|a [|b [|c [|d r]]]]; cbn; try discriminate.
  - destruct (is_space1 a); [reflexivity|discriminate].
  - destruct (is_space1 a) eqn:E1; [discriminate|].
    destruct (is_space2 b a) eqn:E2; [|discriminate]. intros _.
    assert (H : is_space1 b = false).
    { destruct (is_space1 b) eqn:E; [|reflexivity]. exfalso. space_arith. }
    now rewrite H.
  - destruct (is_space1 a) eqn:E1; [discriminate|].
    destruct (is_space2 b a) eqn:E2; [discriminate|].
    destruct (is_space3 c b a) eqn:E3; [|discriminate]. intros _.
    assert (H : is_space1 c = false).
    { destruct (is_space1 c) eqn:E; [|reflexivity]. exfalso. space_arith. }
    assert (H' : is_space2 c b = false).
    { destruct (is_space2 c b) eqn:E; [|reflexivity]. exfalso. space_arith. }
    now rewrite H, H'.
  - destruct (is_space1 a); [discriminate|].
    destruct (is_space2 b a); [discriminate|].
    destruct (is_space3 c b a); discriminate.
Qed.

Section Runs.

Variable next : string -> option string.

Hypothesis next_one :
  forall s rest, next s = Some rest ->
    exists w, s = (w ++ rest)%string /\ String.length rest < String.length s
              /\ next w = Some "".

Hypothesis next_app :
  forall u rest w, next u = Some rest -> next (u ++ w) = Some (rest ++ w)%string.

Lemma run_one (w : string) : next w = Some "" -> run_of next w.
Proof.
  intros H. rewrite <- (append_nil_r w). apply run_cons; [exact H|constructor].
Qed.

Lemma run_app (a b : string) :
  run_of next a -> run_of next b -> run_of next (a ++ b).
Proof.
  intros Ha Hb. induction Ha as [|w rest Hw Hr IH]; [exact Hb|].
  rewrite <- append_assoc. now apply run_cons.
Qed.

Lemma drop_while_run_cut (n : nat) (s : string) :
  exists w, s = (w ++ drop_while next n s)%string /\ run_of next w.
Proof.
  revert s. induction n as [|n IH]; intros s; cbn.
  - exists "". split; [reflexivity|constructor].
  - destruct (next s) as [rest|] eqn:E; [|exists ""; split; [reflexivity|constructor]].
    destruct (next_one _ _ E) as (w & -> & _ & Hw).
    destruct (IH rest) as (w' & Hw' & Hr).
    exists (w ++ w')%string. split.
    + rewrite <- append_assoc. now rewrite <- Hw'.
    + now apply run_cons.
Qed.

Lemma drop_while_run (w x : string) (n : nat) :
  run_of next w -> next x = None -> String.length (w ++ x) <= n ->
  drop_while next n (w ++ x) = x.
Proof.
  intros Hw Hx. revert n. induction Hw as [|w rest Hw Hr IH]; intros n Hn.
  - now apply drop_while_none.
  - destruct (next_one _ _ Hw) as (_ & _ & Hl & _).
    rewrite <- append_assoc in *. rewrite length_app in Hn. cbn in Hl.
    destruct n as [|n]; [lia|].
    cbn [drop_while]. rewrite (next_app _ _ (rest ++ x) Hw). cbn [String.append].
    apply IH. lia.
Qed.

End Runs.

Lemma run_reversed (w : string) :
  run_of ws_prefix w -> run_of ws_prefix_rev (rev w).
Proof.
  induction 1 as [|w rest Hw Hr IH]; [constructor|].
  rewrite rev_app. apply run_app; [exact IH|].
  apply run_one, ws_prefix_reversed, Hw.
Qed.

Lemma run_rev_reversed (w : string) :
  run_of ws_prefix_rev w -> run_of ws_prefix (rev w).
Proof.
  induction 1 as [|w rest Hw Hr IH]; [constructor|].
  rewrite rev_app. apply run_app; [exact IH|].
  apply run_one, ws_prefix_rev_reversed, Hw.
Qed.

Lemma blank_run (s : string) : blank s = true <-> run_of ws_prefix s.
Proof.
  unfold blank, lstrip. split.
  - intros H.
    destruct (drop_while_run_cut ws_prefix ws_prefix_one (String.length s) s)
      as (w & Hw & Hr).
    destruct (drop_while ws_prefix (String.length s) s); [|discriminate].
    rewrite append_nil_r in Hw. now subst.
  - intros H.
    pose proof (drop_while_run ws_prefix ws_prefix_one ws_prefix_app s "" (String.length s) H eq_refl) as E.
    rewrite append_nil_r in E. rewrite E; [reflexivity|lia].
Qed.

Lemma lstrip_blank_cut (s : string) :
  exists pre, s = (pre ++ lstrip s)%string /\ blank pre = true.
Proof.
  destruct (drop_while_run_cut ws_prefix ws_prefix_one (String.length s) s)
    as (w & Hw & Hr).
  exists w. split; [exact Hw|now apply blank_run].
Qed.

Lemma rstrip_blank_cut (s : string) :
  exists post, s = (rstrip s ++ post)%string /\ blank post = true.
Proof.
  unfold rstrip.
  destruct (drop_while_run_cut ws_prefix_rev ws_prefix_rev_one
              (String.length s) (rev s)) as (w & Hw & Hr).
  exists (rev w). split.
  - rewrite <- rev_app, <- Hw. now rewrite rev_involutive.
  - now apply blank_run, run_rev_reversed.
Qed.

Lemma strip_blank_cut (s : string) :
  exists pre post,
    s = (pre ++ strip s ++ post)%string /\ blank pre = true /\ blank post = true.
Proof.
  destruct (lstrip_blank_cut s) as (pre & Hpre & Bpre).
  destruct (rstrip_blank_cut (lstrip s)) as (post & Hpost & Bpost).
  exists pre, post. unfold strip. now rewrite <- Hpost.
Qed.

(** The first byte of a whitespace character is no later byte of one, so
    whitespace after a string adds no whitespace at its start. *)
Lemma ws_prefix_before_run (t post : string) :
  ws_prefix t = None -> t <> "" -> run_of ws_prefix post ->
  ws_prefix (t ++ post) = None.
Proof.
  intros Ht Hne Hp.
  destruct Hp as [|w rest Hw Hr]; [now rewrite append_nil_r|].
  destruct w as [|x w]; [discriminate|].
  assert (Hx : is_space1 x = true \/ nat_of_ascii x = 194
               \/ 225 <= nat_of_ascii x <= 227).
  { revert Hw. cbn.
    destruct (is_space1 x) eqn:E1; [now left|].
    destruct w as [|y w]; [discriminate|].
    destruct (is_space2 x y) eqn:E2; [intros _; right; left; space_arith|].
    destruct w as [|z w]; [discriminate|].
    destruct (is_space3 x y z) eqn:E3; [|discriminate].
    intros _. right. right. space_arith. }
  clear Hw Hr.
  destruct t as [|a [|b [|c r]]]; [contradiction| | |]; revert Ht; cbn.
  - destruct (is_space1 a) eqn:E1; [discriminate|]. intros _.
    destruct (is_space2 a x) eqn:E2; [exfalso; destruct Hx as [H|[H|H]]; space_arith|].
    destruct (w ++ rest)%string as [|y q]; [reflexivity|].
    destruct (is_space3 a x y) eqn:E3; [exfalso; destruct Hx as [H|[H|H]]; space_arith|].
    reflexivity.
  - destruct (is_space1 a) eqn:E1; [discriminate|].
    destruct (is_space2 a b) eqn:E2; [discriminate|]. intros _.
    destruct (is_space3 a b x) eqn:E3; [exfalso; destruct Hx as [H|[H|H]]; space_arith|].
    reflexivity.
  - destruct (is_space1 a) eqn:E1; [discriminate|].
    destruct (is_space2 a b) eqn:E2; [discriminate|].
    destruct (is_space3 a b c) eqn:E3; [discriminate|]. reflexivity.
Qed.

Lemma strip_unique (s pre t post : string) :
  s = (pre ++ t ++ post)%string ->
  blank pre = true -> blank post = true ->
  ws_prefix t = None -> ws_prefix_rev (rev t) = None ->
  strip s = t.
Proof.
  intros -> Hpre Hpost Ht Hr.
  apply blank_run in Hpre. apply blank_run in Hpost.
  destruct t as [|a t'] eqn:Et.
  - cbn [String.append].
    assert (E : lstrip (pre ++ post) = "").
    { pose proof (proj2 (blank_run (pre ++ post)) (run_app _ pre post Hpre Hpost)) as B.
      unfold blank in B. destruct (lstrip (pre ++ post)); [reflexivity|discriminate]. }
    unfold strip. rewrite E. reflexivity.
  - rewrite <- Et in *. assert (Hne : t <> "") by (subst t; discriminate).
    clear Et.
    assert (E : lstrip (pre ++ t ++ post) = (t ++ post)%string).
    { unfold lstrip.
      apply (drop_while_run ws_prefix ws_prefix_one ws_prefix_app); auto.
      now apply ws_prefix_before_run. }
    unfold strip. rewrite E. unfold rstrip. rewrite rev_app.
    rewrite (drop_while_run ws_prefix_rev ws_prefix_rev_one ws_prefix_rev_app).
    + apply rev_involutive.
    + now apply run_reversed.
    + exact Hr.
    + rewrite <- rev_app, rev_length. lia.
Qed.

End PyTextFacts.

(** X12.  The number of queries is the number of commas of the input plus
    one: the list of job titles is never empty, an empty box gives one
    query with the empty title, and every empty piece (two commas in a row, a
    comma at the end) gives a query of its own. *)
Theorem one_query_per_comma (job_titles : string) :
  List.length (job_titles_list_of job_titles)
  = PyStr.count_char "," job_titles + 1
  /\ job_titles_list_of job_titles <> []
  /\ job_titles_list_of "" = [""]
  /\ forall a b, job_titles_list_of (a ++ ",," ++ b)
                 = job_titles_list_of a ++ [""] ++ job_titles_list_of b.
Proof.
  unfold job_titles_list_of. split; [|split; [|split]].
  - rewrite length_map. apply PyTextFacts.split_length.
  - intros H. apply map_eq_nil in H. now apply PyTextFacts.split_not_nil in H.
  - reflexivity.
  - intros a b.
    assert (Hs : forall x y, PyText.split "," (x ++ String "," y)
                             = PyText.split "," x ++ PyText.split "," y).
    { intros x y. induction x as [|c x IH]; [reflexivity|].
      cbn [String.append PyText.split]. rewrite IH.
      pose proof (PyTextFacts.split_not_nil "," x) as Hn.
      destruct (Ascii.eqb c ","); [reflexivity|].
      destruct (PyText.split "," x); [contradiction|reflexivity]. }
    change (a ++ ",," ++ b)%string
      with (a ++ String "," ("" ++ String "," b))%string.
    rewrite !Hs, !map_app. reflexivity.
Qed.

(** X13.  Splitting loses nothing: joining the pieces with commas gives
    the input back, and no piece contains a comma. *)
Theorem split_join_round_trip (job_titles : string) :
  PyText.join "," (PyText.split "," job_titles) = job_titles
  /\ Forall (fun piece => PyStr.has_char "," piece = false)
            (PyText.split "," job_titles).
Proof.
  split; [apply PyTextFacts.join_split|apply PyTextFacts.split_no_sep].
Qed.

(** X14.  Every job title of the list is its piece of the input with the
    whitespace at its two ends removed and nothing else: the piece is the
    title between two strings of whitespace characters only, the title
    starts and ends with no whitespace character (no space in particular),
    and it is the only string of which both hold.  It contains no comma,
    and stripping it again changes nothing. *)
Theorem job_titles_are_stripped (job_titles : string) :
  Forall2 (fun piece title =>
             (exists pre post,
                 piece = (pre ++ title ++ post)%string
                 /\ PyText.blank pre = true /\ PyText.blank post = true)
             /\ (forall pre t post,
                   piece = (pre ++ t ++ post)%string ->
                   PyText.blank pre = true -> PyText.blank post = true ->
                   PyText.ws_prefix t = None ->
                   PyText.ws_prefix_rev (PyText.rev t) = None ->
                   t = title)
             /\ PyStr.has_char "," title = false
             /\ PyText.ws_prefix title = None
             /\ PyText.ws_prefix_rev (PyText.rev title) = None
             /\ PyStr.startswith " " title = false
             /\ PyStr.startswith " " (PyText.rev title) = false
             /\ PyText.strip title = title)
          (PyText.split "," job_titles) (job_titles_list_of job_titles).
Proof.
  unfold job_titles_list_of.
  pose proof (PyTextFacts.split_no_sep "," job_titles) as Hc.
  induction Hc as [|piece pieces Hp Hps IH]; cbn [map]; constructor; [|exact IH].
  destruct (PyTextFacts.strip_blank_cut piece) as (pre & post & Hcut & Bpre & Bpost).
  destruct (PyTextFacts.strip_done piece) as [H1 H2].
  split; [now exists pre, post|].
  split.
  { intros pre' t post' Hpiece Hb1 Hb2 Ht1 Ht2. symmetry.
    now apply (PyTextFacts.strip_unique piece pre' t post'). }
  split; [rewrite Hcut in Hp; now apply PyTextFacts.has_char_inside in Hp|].
  split; [exact H1|]. split; [exact H2|].
  split; [now apply PyTextFacts.ws_prefix_space|].
  split; [now apply PyTextFacts.ws_prefix_rev_space|].
  now apply PyTextFacts.strip_fixed.
Qed.

(** ** The download link *)

Module Base64Facts.
Import Base64.

Lemma sextets (x y z : nat) :
  x < 256 -> y < 256 -> z < 256 ->
  x / 4 < 64 /\ x mod 4 * 16 < 64 /\ x mod 4 * 16 + y / 16 < 64
  /\ y mod 16 * 4 < 64 /\ y mod 16 * 4 + z / 64 < 64 /\ z mod 64 < 64.
Proof.
  intros Hx Hy Hz.
  assert (y / 16 < 16) by (apply Nat.Div0.div_lt_upper_bound; lia).
  assert (x / 4 < 64) by (apply Nat.Div0.div_lt_upper_bound; lia).
  assert (z / 64 < 4) by (apply Nat.Div0.div_lt_upper_bound; lia).
  pose proof (Nat.mod_upper_bound x 4). pose proof (Nat.mod_upper_bound y 16).
  pose proof (Nat.mod_upper_bound z 64). lia.
Qed.

Lemma byte1 (x q : nat) : q < 16 -> x / 4 * 4 + (x mod 4 * 16 + q) / 16 = x.
Proof.
  intros Hq.
  assert (H1 : (x mod 4 * 16 + q) / 16 = x mod 4).
  { rewrite Nat.div_add_l by lia. rewrite (Nat.div_small q); lia. }
  rewrite H1. pose proof (Nat.div_mod_eq x 4). lia.
Qed.

Lemma byte2 (x y q : nat) :
  y < 256 -> q < 4 ->
  (x mod 4 * 16 + y / 16) mod 16 * 16 + (y mod 16 * 4 + q) / 4 = y.
Proof.
  intros Hy Hq.
  assert (H0 : y / 16 < 16) by (apply Nat.Div0.div_lt_upper_bound; lia).
  assert (H1 : (x mod 4 * 16 + y / 16) mod 16 = y / 16).
  { rewrite Nat.add_comm, Nat.Div0.mod_add. now apply Nat.mod_small. }
  assert (H2 : (y mod 16 * 4 + q) / 4 = y mod 16).
  { rewrite Nat.div_add_l by lia. rewrite (Nat.div_small q); lia. }
  rewrite H1, H2. pose proof (Nat.div_mod_eq y 16). lia.
Qed.

Lemma byte3 (y z : nat) :
  z < 256 -> (y mod 16 * 4 + z / 64) mod 4 * 64 + z mod 64 = z.
Proof.
  intros Hz.
  assert (H0 : z / 64 < 4) by (apply Nat.Div0.div_lt_upper_bound; lia).
  assert (H1 : (y mod 16 * 4 + z / 64) mod 4 = z / 64).
  { rewrite Nat.add_comm, Nat.Div0.mod_add. now apply Nat.mod_small. }
  rewrite H1. pose proof (Nat.div_mod_eq z 64). lia.
Qed.

(** The alphabet has 64 different characters, none of them the padding or
    the double quote. *)
Lemma digits_checked :
  forallb (fun n =>
             match value (digit n) with
             | Some m => Nat.eqb m n
             | None => false
             end
             && negb (Ascii.eqb (digit n) pad)
             && negb (Ascii.eqb (digit n) (ascii_of_nat 34)))
          (seq 0 64) = true.
Proof. vm_compute. reflexivity. Qed.

Lemma digit_facts (n : nat) :
  n < 64 ->
  value (digit n) = Some n
  /\ Ascii.eqb (digit n) pad = false
  /\ Ascii.eqb (digit n) (ascii_of_nat 34) = false.
Proof.
  intros Hn. pose proof digits_checked as H.
  rewrite forallb_forall in H. specialize (H n).
  assert (Hin : In n (seq 0 64)) by (apply in_seq; lia).
  specialize (H Hin).
  apply andb_prop in H as [H H3]. apply andb_prop in H as [H1 H2].
  destruct (value (digit n)) as [m|]; [|discriminate].
  apply Nat.eqb_eq in H1. subst m.
  apply negb_true_iff in H2, H3. auto.
Qed.

Lemma value_digit (n : nat) : n < 64 -> value (digit n) = Some n.
Proof. intros H. apply (digit_facts n H). Qed.

Lemma digit_not_pad (n : nat) : n < 64 -> Ascii.eqb (digit n) pad = false.
Proof. intros H. apply (digit_facts n H). Qed.

Lemma digit_not_quote (n : nat) :
  n < 64 -> Ascii.eqb (digit n) (ascii_of_nat 34) = false.
Proof. intros H. apply (digit_facts n H). Qed.

Lemma digit_is_b64 (n : nat) : n < 64 -> is_b64_char (digit n) = true.
Proof. intros H. unfold is_b64_char. now rewrite value_digit. Qed.

(** Induction on strings three bytes at a time. *)
Lemma string_ind3 (P : string -> Prop) :
  P EmptyString ->
  (forall a, P (String a EmptyString)) ->
  (forall a b, P (String a (String b EmptyString))) ->
  (forall a b c rest, P rest -> P (String a (String b (String c rest)))) ->
  forall s, P s.
Proof.
  intros H0 H1 H2 H3.
  assert (H : forall s, P s /\ (forall a, P (String a s))
                        /\ forall a b, P (String a (String b s))).
  { induction s as [|c s (IH0 & IH1 & IH2)].
    - auto.
    - split; [apply IH1|]. split; [intros a; apply IH2|]. intros a b. now apply H3. }
  intros s. apply H.
Qed.

(** Decoding undoes encoding. *)
Lemma b64decode_b64encode (s : string) :
  Base64.b64decode (Base64.b64encode s) = Some s.
Proof.
  induction s as [|a|a b|a b c rest IH] using string_ind3.
  - reflexivity.
  - pose proof (nat_ascii_bounded a) as Ha.
    destruct (sextets (nat_of_ascii a) 0 0 Ha ltac:(lia) ltac:(lia))
      as (S1 & S2 & _).
    cbn [Base64.b64encode Base64.b64decode].
    rewrite !value_digit by assumption.
    rewrite Ascii.eqb_refl. cbn [andb negb PyStr.truthy].
    replace (nat_of_ascii a / 4 * 4 + nat_of_ascii a mod 4 * 16 / 16)
      with (nat_of_ascii a).
    + now rewrite ascii_nat_embedding.
    + pose proof (byte1 (nat_of_ascii a) 0 ltac:(lia)) as E.
      rewrite Nat.add_0_r in E. now rewrite E.
  - pose proof (nat_ascii_bounded a) as Ha. pose proof (nat_ascii_bounded b) as Hb.
    destruct (sextets (nat_of_ascii a) (nat_of_ascii b) 0
                Ha Hb ltac:(lia)) as (S1 & S2 & S3 & S4 & _).
    cbn [Base64.b64encode Base64.b64decode].
    rewrite !value_digit by assumption.
    rewrite digit_not_pad by assumption.
    rewrite Ascii.eqb_refl. cbn [negb PyStr.truthy].
    assert (Hq : nat_of_ascii b / 16 < 16)
      by (apply Nat.Div0.div_lt_upper_bound; lia).
    rewrite (byte1 (nat_of_ascii a) _ Hq).
    pose proof (byte2 (nat_of_ascii a) (nat_of_ascii b) 0
                  Hb ltac:(lia)) as E.
    rewrite Nat.add_0_r in E. rewrite E.
    now rewrite !ascii_nat_embedding.
  - pose proof (nat_ascii_bounded a) as Ha. pose proof (nat_ascii_bounded b) as Hb.
    pose proof (nat_ascii_bounded c) as Hc.
    destruct (sextets (nat_of_ascii a) (nat_of_ascii b)
                (nat_of_ascii c) Ha Hb Hc) as (S1 & S2 & S3 & S4 & S5 & S6).
    cbn [Base64.b64encode Base64.b64decode].
    rewrite !value_digit by assumption.
    rewrite !digit_not_pad by assumption.
    rewrite IH.
    assert (Hq : nat_of_ascii b / 16 < 16)
      by (apply Nat.Div0.div_lt_upper_bound; lia).
    assert (Hq' : nat_of_ascii c / 64 < 4)
      by (apply Nat.Div0.div_lt_upper_bound; lia).
    rewrite (byte1 (nat_of_ascii a) _ Hq).
    rewrite (byte2 (nat_of_ascii a) (nat_of_ascii b) _ Hb Hq').
    rewrite (byte3 (nat_of_ascii b) (nat_of_ascii c) Hc).
    now rewrite !ascii_nat_embedding.
Qed.

(** An encoding consists of alphabet and padding characters; none is a
    double quote. *)
Lemma b64encode_chars (bs : string) :
  Base64.all_chars Base64.is_b64_char (Base64.b64encode bs) = true
  /\ PyStr.has_char (ascii_of_nat 34) (Base64.b64encode bs) = false.
Proof.
  induction bs as [|a|a b|a b c rest (IH2 & IH3)] using string_ind3.
  - repeat split.
  - pose proof (nat_ascii_bounded a) as Ha.
    destruct (sextets (nat_of_ascii a) 0 0 Ha ltac:(lia) ltac:(lia))
      as (S1 & S2 & _).
    cbn [Base64.b64encode Base64.all_chars PyStr.has_char].
    rewrite !digit_is_b64, !digit_not_quote by assumption.
    repeat split.
  - pose proof (nat_ascii_bounded a) as Ha. pose proof (nat_ascii_bounded b) as Hb.
    destruct (sextets (nat_of_ascii a) (nat_of_ascii b) 0
                Ha Hb ltac:(lia)) as (S1 & S2 & S3 & S4 & _).
    cbn [Base64.b64encode Base64.all_chars PyStr.has_char].
    rewrite !digit_is_b64, !digit_not_quote by assumption.
    repeat split.
  - pose proof (nat_ascii_bounded a) as Ha. pose proof (nat_ascii_bounded b) as Hb.
    pose proof (nat_ascii_bounded c) as Hc.
    destruct (sextets (nat_of_ascii a) (nat_of_ascii b)
                (nat_of_ascii c) Ha Hb Hc) as (S1 & S2 & S3 & S4 & S5 & S6).
    cbn [Base64.b64encode Base64.all_chars PyStr.has_char].
    rewrite !digit_is_b64, !digit_not_quote by assumption.
    rewrite IH2, IH3. repeat split.
Qed.

End Base64Facts.

(** X15.  Base64 loses nothing: decoding the encoding of any bytes gives
    the bytes back, so different csv texts get different payloads. *)
Theorem b64_round_trip (bs : string) :
  Base64.b64decode (Base64.b64encode bs) = Some bs
  /\ forall bs', Base64.b64encode bs = Base64.b64encode bs' -> bs = bs'.
Proof.
  split; [apply Base64Facts.b64decode_b64encode|].
  intros bs' E. pose proof (Base64Facts.b64decode_b64encode bs) as H1.
  rewrite E, Base64Facts.b64decode_b64encode in H1. now injection H1.
Qed.

(** X16.  The encoding of [n] bytes has [4 * ((n + 2) / 3)] characters,
    all of them from the alphabet or the padding; none is a double
    quote. *)
Theorem b64_shape (bs : string) :
  String.length (Base64.b64encode bs) = 4 * ((String.length bs + 2) / 3)
  /\ Base64.all_chars Base64.is_b64_char (Base64.b64encode bs) = true
  /\ PyStr.has_char (ascii_of_nat 34) (Base64.b64encode bs) = false.
Proof.
  split; [|apply Base64Facts.b64encode_chars].
  induction bs as [|a|a b|a b c rest IH] using Base64Facts.string_ind3;
    try reflexivity.
  cbn [Base64.b64encode String.length]. rewrite IH.
  replace (S (S (S (String.length rest))) + 2)
    with (String.length rest + 2 + 1 * 3) by lia.
  rewrite Nat.div_add by lia. lia.
Qed.

Lemma until_quote_app (p rest : string) :
  PyStr.has_char (ascii_of_nat 34) p = false ->
  until_quote (p ++ String (ascii_of_nat 34) rest) = p.
Proof.
  induction p as [|c p IH]; cbn [String.append until_quote PyStr.has_char].
  - now rewrite Ascii.eqb_refl.
  - intros H. apply orb_false_elim in H as [H1 H2]. rewrite H1. now rewrite IH.
Qed.

Lemma first_attribute_app (pre rest : string) :
  PyStr.has_char (ascii_of_nat 34) pre = false ->
  first_attribute (pre ++ String (ascii_of_nat 34) rest) = until_quote rest.
Proof.
  induction pre as [|c pre IH]; cbn [String.append first_attribute PyStr.has_char].
  - now rewrite Ascii.eqb_refl.
  - intros H. apply orb_false_elim in H as [H1 H2]. rewrite H1. now apply IH.
Qed.

(** X17.  Whatever the table and its csv text contain, the [href]
    attribute of the download link is the [data:] prefix followed by the
    base64 text: the payload never ends the attribute early, and it decodes
    to the csv text, byte for byte. *)
Theorem download_link_carries_csv (to_csv : DataFrame -> string)
    (df : DataFrame) (filename : string) :
  first_attribute (get_csv_download_link to_csv df filename)
  = ("data:file/csv;base64," ++ Base64.b64encode (to_csv df))%string
  /\ Base64.b64decode (Base64.b64encode (to_csv df)) = Some (to_csv df).
Proof.
  split; [|apply Base64Facts.b64decode_b64encode].
  unfold get_csv_download_link. cbv zeta.
  set (b64 := Base64.b64encode (to_csv df)).
  set (tail := (" download=" ++ dquote ++ filename ++ dquote
                  ++ ">Download CSV File</a>")%string).
  change ("<a href=" ++ dquote ++ "data:file/csv;base64," ++ b64 ++ dquote ++ tail)%string
    with ("<a href="
            ++ String (ascii_of_nat 34)
                 ("data:file/csv;base64," ++ b64 ++ String (ascii_of_nat 34) tail))%string.
  rewrite first_attribute_app by reflexivity.
  rewrite PyStrFacts.append_assoc. apply until_quote_app.
  rewrite PyStrFacts.has_char_app. subst b64.
  destruct (Base64Facts.b64encode_chars (to_csv df)) as (_ & ->). reflexivity.
Qed.

Lemma encoding_fixes_space_free_witness :
  PyStr.has_char " " "India" = false /\ job_param "India" = "India".
Proof.
  split; [reflexivity|].
  exact (proj2 (proj1 (encoding_fixes_space_free "India")) eq_refl).
Defined.

Lemma b64_round_trip_witness :
  Base64.b64encode "a,b" = "YSxi" /\ "a,b" = "a,b".
Proof.
  split; [reflexivity|].
  exact (proj2 (b64_round_trip "a,b") "a,b" eq_refl).
Defined.
